(** * Finance Analytics MVP data generator: model and verified properties

    Shallow embedding of [generate_finance_mvp_data.py].

    Conventions of the model
    - Python [int] is [Z]; Python [float] is idealised as an exact rational
      [Q] (no overflow, no NaN, no binary rounding); [round(x, 2)] is
      round-half-to-even at two decimals.
    - A pandas DataFrame is the list of its rows, each row a record.
    - The numpy [Generator] is an interface ([Generator], [GeneratorLaws]):
      every draw takes the generator state and returns the value with the
      next state.  The argument checks numpy performs before drawing are
      written out ([np_choice], [np_poisson]).
    - Exceptions are values of [Exn]; code that may raise returns [Result].
    - The file system is a store of directories and files; [os.makedirs]
      and [to_csv] are modelled on a store where the operating system does
      not fail. *)

From Stdlib Require Import ZArith QArith Qround Lqa Lia List String Ascii.
From Stdlib Require Import DecimalString.
From stdpp Require Import gmap strings list sorting pretty.

Open Scope string_scope.
Open Scope list_scope.
Open Scope Z_scope.

(** ** Exceptions and results *)

(** The [assert] statements of [validate], in source order. *)
Inductive Assertion :=
| BudgetCostCenterRef
| ActualsCostCenterRef
| BudgetGlRef
| ActualsGlRef
| PostingDateMin
| PostingDateMax
| BudgetGrainUnique
| BudgetNonNegative.

Inductive Exn :=
| ValueError (msg : string)
| KeyError (key : string)
| TypeError (msg : string)
| AssertionError (a : Assertion).

Inductive Result (A : Type) :=
| Ok (a : A)
| Raise (e : Exn).
Arguments Ok {A} a.
Arguments Raise {A} e.

#[global] Instance result_ret : MRet Result := fun _ a => Ok a.

#[global] Instance result_bind : MBind Result := fun _ _ k r =>
  match r with
  | Ok a => k a
  | Raise e => Raise e
  end.

Definition is_ok {A} (r : Result A) : bool :=
  match r with Ok _ => true | Raise _ => false end.

(** ** Numbers *)

Definition Qltb (a b : Q) : bool := negb (Qle_bool b a).

(** Python's [max(0.0, x)]: [x] when [x > 0.0], else [0.0]. *)
Definition max0 (x : Q) : Q := if Qltb 0 x then x else 0%Q.

(** Nearest integer, ties to the even one. *)
Definition round_half_even (q : Q) : Z :=
  let f := Qfloor q in
  let r := (q - inject_Z f)%Q in
  match (r ?= 1 # 2)%Q with
  | Lt => f
  | Gt => f + 1
  | Eq => if Z.even f then f else f + 1
  end.

(** [round(x, 2)]. *)
Definition round2 (q : Q) : Q := Qmake (round_half_even (q * 100)) 100.

Definition Qsum (l : list Q) : Q := fold_right Qplus 0%Q l.

(** [np.clip(x, lo, hi)] is [minimum(hi, maximum(x, lo))]. *)
Definition np_clip (x lo hi : Z) : Z := Z.min hi (Z.max x lo).

(** ** Calendar dates *)

Record date := Date { year : Z; month : Z; day : Z }.

#[global] Instance date_eq_dec : EqDecision date.
Proof. solve_decision. Defined.

Definition is_leap (y : Z) : bool :=
  (y mod 4 =? 0) && (negb (y mod 100 =? 0) || (y mod 400 =? 0)).

Definition days_in_month (y m : Z) : Z :=
  match m with
  | 1 | 3 | 5 | 7 | 8 | 10 | 12 => 31
  | 4 | 6 | 9 | 11 => 30
  | 2 => if is_leap y then 29 else 28
  | _ => 0
  end.

Definition date_leb (a b : date) : bool :=
  (year a <? year b)
  || ((year a =? year b)
      && ((month a <? month b)
          || ((month a =? month b) && (day a <=? day b)))).

Definition date_le (a b : date) : Prop := date_leb a b = true.

Definition days_before_year (y : Z) : Z :=
  let y1 := y - 1 in y1 * 365 + y1 / 4 - y1 / 100 + y1 / 400.

Definition days_before_month (y m : Z) : Z :=
  fold_right Z.add 0 (map (days_in_month y) (seqZ 1 (m - 1))).

Definition toordinal (d : date) : Z :=
  days_before_year (year d) + days_before_month (year d) (month d) + day d.

Definition next_day (d : date) : date :=
  if day d <? days_in_month (year d) (month d)
  then Date (year d) (month d) (day d + 1)
  else if month d <? 12
       then Date (year d) (month d + 1) 1
       else Date (year d + 1) 1 1.

Fixpoint days_from (n : nat) (d : date) : list date :=
  match n with
  | O => []
  | S n' => d :: days_from n' (next_day d)
  end.

(** [pd.date_range(a, b, freq="D")]: every day from [a] to [b] inclusive. *)
Definition date_range (a b : date) : list date :=
  days_from (Z.to_nat (toordinal b - toordinal a + 1)) a.

(** A monthly period [(year, month)], as [pd.Period] with [freq="M"]. *)
Definition period : Type := Z * Z.

Definition month_index (d : date) : Z := year d * 12 + (month d - 1).

Definition period_of_index (i : Z) : period := (i / 12, i mod 12 + 1).

(** [pd.period_range(a, b, freq="M")]. *)
Definition period_range (a b : date) : list period :=
  map period_of_index
      (seqZ (month_index a) (month_index b - month_index a + 1)).

(** The days of a period: from [p.to_timestamp()] to the day before
    [(p + 1).to_timestamp()]. *)
Definition dates_in_period (p : period) : list date :=
  map (Date (fst p) (snd p)) (seqZ 1 (days_in_month (fst p) (snd p))).

(** Smallest and largest element of a date column; [None] for an empty
    column (pandas gives NaN or NaT there). *)
Definition date_min (l : list date) : option date :=
  match l with
  | [] => None
  | d :: l' => Some (fold_left (fun m x => if date_leb x m then x else m) l' d)
  end.

Definition date_max (l : list date) : option date :=
  match l with
  | [] => None
  | d :: l' => Some (fold_left (fun m x => if date_leb m x then x else m) l' d)
  end.

(** ** Configuration *)

Record Config := {
  out_dir : string;
  seed : Z;
  start_date : date;
  end_date : date;
  num_cost_centers : Z;
  num_gl_accounts : Z;
  avg_postings_opex_per_month : Z;
  avg_postings_capex_per_month : Z;
  max_postings_per_month : Z;
  base_opex : Q;
  base_capex : Q;
  over_budget_cost_centers : Z;
  under_budget_cost_centers : Z;
  seasonal_q4_uplift : Q;
  seasonal_summer_uplift : Q;
  sparse_gl_probability : Q;
  spike_probability : Q;
  spike_min : Q;
  spike_max : Q
}.

(** [Config()] with the dataclass defaults. *)
Definition default_config : Config := {|
  out_dir := "finance_mvp_data";
  seed := 42;
  start_date := Date 2024 1 1;
  end_date := Date 2025 12 31;
  num_cost_centers := 12;
  num_gl_accounts := 18;
  avg_postings_opex_per_month := 4;
  avg_postings_capex_per_month := 2;
  max_postings_per_month := 14;
  base_opex := 3000;
  base_capex := 8000;
  over_budget_cost_centers := 4;
  under_budget_cost_centers := 3;
  seasonal_q4_uplift := 15 # 100;
  seasonal_summer_uplift := 5 # 100;
  sparse_gl_probability := 35 # 100;
  spike_probability := 3 # 100;
  spike_min := 25 # 100;
  spike_max := 60 # 100
|}.

(** ** Tables *)

Record CostCenter := {
  cc_cost_center_id : string;
  cc_cost_center_name : string;
  cc_department : string;
  cc_manager : string;
  cc_parent_cost_center_id : option string
}.

Record GLAccount := {
  gl_gl_account : string;
  gl_gl_name : string;
  gl_account_type : string;
  gl_gl_group : string
}.

Record CalendarDay := {
  cal_calendar_date : date;
  cal_fiscal_year : Z;
  cal_fiscal_period : Z;
  cal_is_month_end : bool
}.

Record BudgetCell := {
  b_fiscal_year : Z;
  b_fiscal_period : Z;
  b_gl_account : string;
  b_cost_center_id : string;
  b_budget_amount : Q
}.

Record ActualPosting := {
  a_posting_date : date;
  a_fiscal_year : Z;
  a_fiscal_period : Z;
  a_gl_account : string;
  a_cost_center_id : string;
  a_actual_amount : Q;
  a_document_type : string
}.

(** The budget grain: (fiscal_year, fiscal_period, gl_account,
    cost_center_id). *)
Definition grain : Type := Z * Z * string * string.

Definition budget_key (b : BudgetCell) : grain :=
  (b_fiscal_year b, b_fiscal_period b, b_gl_account b, b_cost_center_id b).

Definition actual_key (a : ActualPosting) : grain :=
  (a_fiscal_year a, a_fiscal_period a, a_gl_account a, a_cost_center_id a).

(** ** The random generator

    [numpy.random.Generator] as an interface: the operations the program
    calls, each a function of the generator state. *)

Class Generator (G : Type) := {
  (** [np.random.default_rng(seed)] *)
  default_rng : Z -> G;
  (** [rng.random()] *)
  rng_random : G -> Q * G;
  (** [rng.normal(loc, scale)] *)
  rng_normal : Q -> Q -> G -> Q * G;
  (** [rng.uniform(low, high)] *)
  rng_uniform : Q -> Q -> G -> Q * G;
  (** [rng.poisson(lam)] *)
  rng_poisson : Z -> G -> Z * G;
  (** [rng.choice(a, size=n, replace=r)] *)
  rng_choice : forall A : Type, list A -> nat -> bool -> G -> list A * G;
  (** [rng.choice(a)], a single draw; the first argument is returned only
      for an empty population, which [np_choice_one] excludes. *)
  rng_choice_one : forall A : Type, A -> list A -> G -> A * G;
  (** [rng.dirichlet(np.ones(n))] *)
  rng_dirichlet : nat -> G -> list Q * G
}.
Arguments rng_choice {G _ A} a n r g.
Arguments rng_choice_one {G _ A} d a g.

(** What numpy documents of the draws: sizes, membership, ranges. *)
Class GeneratorLaws (G : Type) `{Generator G} := {
  rng_random_range : forall g : G,
    (0 <= fst (rng_random g))%Q /\ (fst (rng_random g) < 1)%Q;
  rng_poisson_nonneg : forall lam (g : G), 0 <= fst (rng_poisson lam g);
  rng_choice_length : forall (A : Type) (a : list A) n r (g : G),
    a <> [] \/ n = O ->
    r = true \/ (n <= length a)%nat ->
    length (fst (rng_choice a n r g)) = n;
  rng_choice_In : forall (A : Type) (a : list A) n r (g : G) x,
    x ∈ fst (rng_choice a n r g) -> x ∈ a;
  rng_choice_NoDup : forall (A : Type) (a : list A) n (g : G),
    NoDup a -> NoDup (fst (rng_choice a n false g));
  rng_choice_one_In : forall (A : Type) (d : A) (a : list A) (g : G),
    a <> [] -> fst (rng_choice_one d a g) ∈ a;
  rng_dirichlet_length : forall n (g : G),
    length (fst (rng_dirichlet n g)) = n;
  rng_dirichlet_nonneg : forall n (g : G) w,
    w ∈ fst (rng_dirichlet n g) -> (0 <= w)%Q;
  rng_dirichlet_sum : forall n (g : G),
    (0 < n)%nat -> (Qsum (fst (rng_dirichlet n g)) == 1)%Q
}.

(** ** Python and pandas helpers *)

(** [l[:n]]: a negative [n] counts from the end. *)
Definition py_take {A} (n : Z) (l : list A) : list A :=
  if 0 <=? n then take (Z.to_nat n) l
  else take (Z.to_nat (Z.of_nat (length l) + n)) l.

(** [[x] * n]. *)
Definition py_repeat {A} (x : A) (n : Z) : list A := replicate (Z.to_nat n) x.

(** [range(a, b)]. *)
Definition py_range (a b : Z) : list Z := seqZ a (b - a).

(** [str(i)] for an integer. *)
Definition str (i : Z) : string := pretty i.

Fixpoint zeros (n : nat) : string :=
  match n with
  | O => ""
  | S n' => String "0" (zeros n')
  end.

(** [s.zfill(w)]: zeros are inserted after a leading sign. *)
Definition zfill (w : nat) (s : string) : string :=
  let pad := zeros (w - String.length s) in
  match s with
  | String c s' =>
      if (Ascii.eqb c "+" || Ascii.eqb c "-")%bool
      then String c (pad +:+ s')
      else pad +:+ s
  | EmptyString => pad
  end.

(** [enumerate(l)]. *)
Definition enumerate {A} (l : list A) : list (Z * A) :=
  zip (seqZ 0 (Z.of_nat (length l))) l.

(** [df.duplicated(subset=key)]: a row is marked when its key occurred in
    an earlier row. *)
Fixpoint duplicated_from {K} `{EqDecision K} (seen keys : list K) : list bool :=
  match keys with
  | [] => []
  | k :: ks => bool_decide (k ∈ seen) :: duplicated_from (k :: seen) ks
  end.

Definition duplicated {K} `{EqDecision K} (keys : list K) : list bool :=
  duplicated_from [] keys.

(** [.sum()] of a boolean column. *)
Definition count_true (l : list bool) : nat := length (filter (fun b => b = true) l).

(** [.any()] of a boolean column. *)
Definition any_true (l : list bool) : bool := existsb id l.

(** Columns of equal length are needed to build a DataFrame from a dict of
    lists. *)
Definition same_lengths (ls : list nat) : bool :=
  match ls with
  | [] => true
  | n :: ns => forallb (Nat.eqb n) ns
  end.

(** ** Dimension builder *)

Definition department_catalog : list string :=
  ["FP&A"; "Accounting"; "Procurement"; "Treasury"; "Operations"; "Sales Ops";
   "IT Finance"; "Corporate"; "R&D"; "Manufacturing"; "Logistics"; "Facilities"].

Definition manager_catalog : list string :=
  ["A. Patel"; "J. Kim"; "M. Chen"; "S. Rivera"; "D. Johnson"; "L. Singh";
   "N. Garcia"; "K. Brown"; "R. Ahmed"; "T. Nguyen"; "P. Wilson"; "E. Martinez"].

Definition gl_catalog : list GLAccount :=
  map (fun '(c, n, t, g) => Build_GLAccount c n t g)
  [("600000", "Salaries & Wages", "OPEX", "Payroll");
   ("601000", "Benefits", "OPEX", "Payroll");
   ("602000", "Contractors", "OPEX", "Payroll");
   ("610000", "Software & Subscriptions", "OPEX", "IT");
   ("611000", "Cloud Infrastructure", "OPEX", "IT");
   ("620000", "Travel & Entertainment", "OPEX", "G&A");
   ("630000", "Marketing Spend", "OPEX", "Sales");
   ("640000", "Office Supplies", "OPEX", "G&A");
   ("650000", "Rent & Utilities", "OPEX", "Facilities");
   ("660000", "Professional Services", "OPEX", "G&A");
   ("670000", "Training & Education", "OPEX", "G&A");
   ("680000", "Insurance", "OPEX", "G&A");
   ("700000", "Capital Equipment", "CAPEX", "Capex");
   ("701000", "IT Hardware", "CAPEX", "Capex");
   ("702000", "Facility Improvements", "CAPEX", "Capex");
   ("710000", "Depreciation", "OPEX", "G&A");
   ("720000", "Freight & Shipping", "OPEX", "Ops");
   ("730000", "Maintenance", "OPEX", "Facilities")].

Definition cost_center_ids (n : Z) : list string :=
  map (fun i => "CC" +:+ zfill 4 (str i)) (py_range 1 (n + 1)).

Definition calendar_row (d : date) : CalendarDay := {|
  cal_calendar_date := d;
  cal_fiscal_year := year d;
  cal_fiscal_period := month d;
  cal_is_month_end := day d =? days_in_month (year d) (month d)
|}.

Record Dimensions := {
  dim_cost_centers : list CostCenter;
  dim_gl_accounts : list GLAccount;
  dim_fiscal_calendar : list CalendarDay
}.

(** [make_dimensions(cfg, rng)]: the generator is not used. *)
Definition make_dimensions (cfg : Config) : Result Dimensions :=
  let departments := py_take (num_cost_centers cfg) department_catalog in
  let cc_ids := cost_center_ids (num_cost_centers cfg) in
  let managers := py_take (num_cost_centers cfg) manager_catalog in
  let names := map (fun d => d +:+ " Cost Center") departments in
  let parents := py_repeat (@None string) (num_cost_centers cfg) in
  if negb (same_lengths [length cc_ids; length names; length departments;
                         length managers; length parents])
  then Raise (ValueError "All arrays must be of the same length")
  else
    let cost_centers :=
      map (fun '(i, n, d, m, p) => Build_CostCenter i n d m p)
          (zip (zip (zip (zip cc_ids names) departments) managers) parents) in
    let gl_accounts := py_take (num_gl_accounts cfg) gl_catalog in
    let dates := date_range (start_date cfg) (end_date cfg) in
    Ok {| dim_cost_centers := cost_centers;
          dim_gl_accounts := gl_accounts;
          dim_fiscal_calendar := map calendar_row dates |}.

(** ** Loops that thread the generator *)

Section Loops.
Context {G : Type}.

(** [for x in xs: body], where the body appends rows and draws from the
    generator. *)
Fixpoint for_each {A B} (body : A -> G -> list B * G) (xs : list A) (g : G)
  : list B * G :=
  match xs with
  | [] => ([], g)
  | x :: xs' =>
      let '(r1, g1) := body x g in
      let '(r2, g2) := for_each body xs' g1 in
      (r1 ++ r2, g2)
  end.

(** The same loop for a body that may raise. *)
Fixpoint for_each_exn {A B} (body : A -> G -> Result (list B * G))
    (xs : list A) (g : G) : Result (list B * G) :=
  match xs with
  | [] => Ok ([], g)
  | x :: xs' =>
      '(r1, g1) ← body x g;
      '(r2, g2) ← for_each_exn body xs' g1;
      Ok (r1 ++ r2, g2)
  end.
End Loops.

(** ** Budget synthesizer *)

Definition sparse_catalog : list string :=
  ["620000"; "640000"; "670000"; "700000"; "701000"; "702000"].

Definition sparse_gls_of (gl_accounts : list GLAccount) : gset string :=
  list_to_set sparse_catalog ∩ list_to_set (map gl_gl_account gl_accounts).

(** [0.8 + (i / max(1, n - 1)) * 0.8] and [0.6 + (i / max(1, n - 1)) * 1.2]. *)
Definition cc_scale_of (cc_i : Z) (n_cc : nat) : Q :=
  ((8 # 10) + (inject_Z cc_i / inject_Z (Z.max 1 (Z.of_nat n_cc - 1))) * (8 # 10))%Q.

Definition gl_scale_of (gl_i : Z) (n_gl : nat) : Q :=
  ((6 # 10) + (inject_Z gl_i / inject_Z (Z.max 1 (Z.of_nat n_gl - 1))) * (12 # 10))%Q.

Definition seasonal_of (cfg : Config) (fp : Z) : Q :=
  if bool_decide (fp ∈ [10; 11; 12]) then (1 + seasonal_q4_uplift cfg)%Q
  else if bool_decide (fp ∈ [6; 7; 8]) then (1 + seasonal_summer_uplift cfg)%Q
  else 1%Q.

Definition base_of (cfg : Config) (acct_type : string) : Q :=
  if String.eqb acct_type "OPEX" then base_opex cfg else base_capex cfg.

Section Budget.
Context {G : Type} `{Generator G}.

(** The body of the innermost loop of [generate_budget]. *)
Definition budget_cell (cfg : Config) (sparse_gls : gset string)
    (n_cc n_gl : nat) (p : period) (cc_i : Z) (cc : string)
    (gl_i : Z) (gl : GLAccount) (g : G) : list BudgetCell * G :=
  let fy := fst p in
  let fp := snd p in
  let cc_scale := cc_scale_of cc_i n_cc in
  let gl_code := gl_gl_account gl in
  let acct_type := gl_account_type gl in
  let '(skip, g1) :=
    if bool_decide (gl_code ∈ sparse_gls)
    then let '(u, g') := rng_random g in
         (Qltb u (sparse_gl_probability cfg), g')
    else (false, g) in
  if skip then ([], g1)
  else
    let base := base_of cfg acct_type in
    let gl_scale := gl_scale_of gl_i n_gl in
    let seasonal := seasonal_of cfg fp in
    let '(noise, g2) := rng_normal 1 (8 # 100) g1 in
    let amt := max0 (base * cc_scale * gl_scale * seasonal * noise) in
    ([{| b_fiscal_year := fy; b_fiscal_period := fp;
         b_gl_account := gl_code; b_cost_center_id := cc;
         b_budget_amount := round2 amt |}], g2).

(** The three nested loops: the rows of [budget_rows] in append order. *)
Definition budget_rows (cfg : Config) (cost_centers : list CostCenter)
    (gl_accounts : list GLAccount) (g : G) : list BudgetCell * G :=
  let months := period_range (start_date cfg) (end_date cfg) in
  let sparse_gls := sparse_gls_of gl_accounts in
  let cc_ids := map cc_cost_center_id cost_centers in
  let gl_rows := gl_accounts in
  for_each (fun p =>
    for_each (fun '(cc_i, cc) =>
      for_each (fun '(gl_i, gl) =>
        budget_cell cfg sparse_gls (length cc_ids) (length gl_rows)
                    p cc_i cc gl_i gl)
        (enumerate gl_rows))
      (enumerate cc_ids))
    months g.

Definition generate_budget (cfg : Config) (cost_centers : list CostCenter)
    (gl_accounts : list GLAccount) (g : G) : Result (list BudgetCell * G) :=
  let '(budget, g') := budget_rows cfg cost_centers gl_accounts g in
  let dupes := count_true (duplicated (map budget_key budget)) in
  if negb (dupes =? 0)%nat
  then Raise (ValueError ("Budget grain not unique; duplicates found: "
                          +:+ str (Z.of_nat dupes)))
  else Ok (budget, g').
End Budget.

(** ** Actuals synthesizer *)

(** Order of Python strings and of key tuples, as [sorted] and the sorted
    group keys of [groupby] use it. *)
Definition str_le (a b : string) : Prop := String.leb a b = true.

#[global] Instance str_le_dec : RelDecision str_le.
Proof. intros a b. unfold str_le. apply _. Defined.

Definition grain_leb (k1 k2 : grain) : bool :=
  let '(y1, p1, g1, c1) := k1 in
  let '(y2, p2, g2, c2) := k2 in
  (y1 <? y2)
  || ((y1 =? y2)
      && ((p1 <? p2)
          || ((p1 =? p2)
              && (String.ltb g1 g2
                  || (String.eqb g1 g2 && String.leb c1 c2))))).

Definition grain_le (k1 k2 : grain) : Prop := grain_leb k1 k2 = true.

#[global] Instance grain_le_dec : RelDecision grain_le.
Proof. intros a b. unfold grain_le. apply _. Defined.

(** [sorted(col.unique().tolist())]. *)
Definition sorted_unique (col : list string) : list string :=
  merge_sort str_le (remove_dups col).

(** [budget.groupby(grain, as_index=False)["budget_amount"].sum()]: one
    row per distinct key, keys in sorted order, amounts summed. *)
Definition groupby_sum (budget : list BudgetCell) : list BudgetCell :=
  map (fun k : grain =>
         let '(fy, fp, gl, cc) := k in
         {| b_fiscal_year := fy; b_fiscal_period := fp;
            b_gl_account := gl; b_cost_center_id := cc;
            b_budget_amount :=
              Qsum (map b_budget_amount
                        (filter (fun b => budget_key b = k) budget)) |})
      (merge_sort grain_le (remove_dups (map budget_key budget))).

(** [dict(pairs)]: of two entries with one key the later one stays. *)
Definition py_dict `{Countable K} {V} (pairs : list (K * V)) : gmap K V :=
  list_to_map (reverse pairs).

(** [dict(zip(gl_accounts["gl_account"], gl_accounts["account_type"]))]. *)
Definition gl_type_of (gl_accounts : list GLAccount) : gmap string string :=
  py_dict (zip (map gl_gl_account gl_accounts)
               (map gl_account_type gl_accounts)).

(** The daily date array of every month of the range, by (year, month). *)
Definition dates_by_period_of (months : list period)
  : gmap period (list date) :=
  py_dict (map (fun p => (p, dates_in_period p)) months).

Definition doc_types : list string := ["SA"; "KR"; "RE"; "AB"; "KA"].

(** [repr] of the key tuple a failed [dates_by_period[(fy, fp)]] reports. *)
Definition repr_period (p : period) : string :=
  "(" +:+ str (fst p) +:+ ", " +:+ str (snd p) +:+ ")".

Section Actuals.
Context {G : Type} `{Generator G}.

(** [rng.choice(a, size, replace)] with the argument checks numpy makes. *)
Definition np_choice {A} (a : list A) (size : Z) (replace : bool) (g : G)
  : Result (list A * G) :=
  if (length a =? 0)%nat && negb (size =? 0)
  then Raise (ValueError "a cannot be empty unless no samples are taken")
  else if negb replace && (Z.of_nat (length a) <? size)
  then Raise (ValueError
         "Cannot take a larger sample than population when replace is False")
  else if size <? 0
  then Raise (ValueError "negative dimensions are not allowed")
  else Ok (rng_choice a (Z.to_nat size) replace g).

(** [rng.poisson(lam)]. *)
Definition np_poisson (lam : Z) (g : G) : Result (Z * G) :=
  if lam <? 0 then Raise (ValueError "lam < 0 or lam is NaN")
  else Ok (rng_poisson lam g).

(** What [generate_actuals] computes once, before its loop. *)
Record Cohorts := {
  over_budget_cc : gset string;
  under_budget_cc : gset string
}.

Definition lam_of (cfg : Config) (gl_type : gmap string string)
    (gl : string) : Z :=
  match gl_type !! gl with
  | Some t => if String.eqb t "OPEX"
              then avg_postings_opex_per_month cfg
              else avg_postings_capex_per_month cfg
  | None => avg_postings_capex_per_month cfg
  end.

(** The multiplier of a cell and the generator after its draws. *)
Definition multiplier (cfg : Config) (co : Cohorts) (cc : string) (g : G)
  : Q * G :=
  let '(mult0, g1) := rng_normal 1 (12 # 100) g in
  let mult1 := if bool_decide (cc ∈ over_budget_cc co)
               then (mult0 + (8 # 100))%Q else mult0 in
  let mult2 := if bool_decide (cc ∈ under_budget_cc co)
               then (mult1 - (7 # 100))%Q else mult1 in
  let '(u, g2) := rng_random g1 in
  if Qltb u (spike_probability cfg)
  then let '(s, g3) := rng_uniform (spike_min cfg) (spike_max cfg) g2 in
       ((mult2 + s)%Q, g3)
  else (mult2, g2).

(** The posting count of a cell: [int(np.clip(rng.poisson(lam), 1, max))]. *)
Definition posting_count (cfg : Config) (lam : Z) (g : G) : Result (Z * G) :=
  '(k, g') ← np_poisson lam g;
  Ok (np_clip k 1 (max_postings_per_month cfg), g').

(** [dates_by_period[(fy, fp)]]. *)
Definition period_dates (dates_by_period : gmap period (list date))
    (p : period) : Result (list date) :=
  match dates_by_period !! p with
  | Some ds => Ok ds
  | None => Raise (KeyError (repr_period p))
  end.

(** One posting row: the inner loop over [zip(post_dates, amounts)]. *)
Definition posting_row (fy fp : Z) (gl cc : string) (da : date * Q) (g : G)
  : list ActualPosting * G :=
  let '(doc, g') := rng_choice_one "SA" doc_types g in
  ([{| a_posting_date := fst da; a_fiscal_year := fy; a_fiscal_period := fp;
       a_gl_account := gl; a_cost_center_id := cc;
       a_actual_amount := round2 (snd da); a_document_type := doc |}], g').

(** The body of the loop over the grouped budget rows. *)
Definition actual_cell (cfg : Config) (co : Cohorts)
    (gl_type : gmap string string) (dates_by_period : gmap period (list date))
    (row : BudgetCell) (g : G) : Result (list ActualPosting * G) :=
  let fy := b_fiscal_year row in
  let fp := b_fiscal_period row in
  let gl := b_gl_account row in
  let cc := b_cost_center_id row in
  let bud := b_budget_amount row in
  let '(mult, g1) := multiplier cfg co cc g in
  let target_actual := max0 (bud * mult) in
  let lam := lam_of cfg gl_type gl in
  '(n, g2) ← posting_count cfg lam g1;
  dates_in_month ← period_dates dates_by_period (fy, fp);
  '(post_dates, g3) ← np_choice dates_in_month n true g2;
  let '(weights, g4) := rng_dirichlet (Z.to_nat n) g3 in
  let amounts := map (Qmult target_actual) weights in
  Ok (for_each (posting_row fy fp gl cc) (zip post_dates amounts) g4).

Definition generate_actuals (cfg : Config) (budget : list BudgetCell)
    (gl_accounts : list GLAccount) (g : G)
  : Result (list ActualPosting * G) :=
  let months := period_range (start_date cfg) (end_date cfg) in
  let cc_ids := sorted_unique (map b_cost_center_id budget) in
  '(over, g1) ←
    np_choice cc_ids
      (Z.min (over_budget_cost_centers cfg) (Z.of_nat (length cc_ids)))
      false g;
  let over_set : gset string := list_to_set over in
  let remaining := filter (fun c => c ∉ over_set) cc_ids in
  '(under, g2) ←
    np_choice remaining
      (Z.min (under_budget_cost_centers cfg) (Z.of_nat (length remaining)))
      false g1;
  let co := {| over_budget_cc := over_set;
               under_budget_cc := list_to_set under |} in
  let gl_type := gl_type_of gl_accounts in
  let dates_by_period := dates_by_period_of months in
  let budget_g := groupby_sum budget in
  for_each_exn (actual_cell cfg co gl_type dates_by_period) budget_g g2.
End Actuals.

(** ** Validator *)

Definition check (a : Assertion) (b : bool) : Result unit :=
  if b then Ok tt else Raise (AssertionError a).

(** [set(xs).issubset(set(ys))]. *)
Definition issubset (xs ys : list string) : bool :=
  bool_decide ((list_to_set xs : gset string) ⊆ list_to_set ys).

(** [posting_min >= calendar_min.date()] and [posting_max <=
    calendar_max.date()].  The operands are evaluated left to right: the
    extreme of an empty posting column is NaN (a float), [.date()] of the
    NaT of an empty calendar raises, and a float does not compare with a
    date. *)
Definition compare_dates (cmp : date -> date -> bool) (op : string)
    (posting calendar : option date) : Result bool :=
  match calendar with
  | None => Raise (ValueError "NaTType does not support date")
  | Some c =>
      match posting with
      | None => Raise (TypeError ("'" +:+ op +:+
          "' not supported between instances of 'float' and 'datetime.date'"))
      | Some d => Ok (cmp d c)
      end
  end.

Definition validate (cost_centers : list CostCenter)
    (gl_accounts : list GLAccount) (fiscal_calendar : list CalendarDay)
    (budget : list BudgetCell) (actuals : list ActualPosting) : Result unit :=
  let cc_ids := map cc_cost_center_id cost_centers in
  let gl_codes := map gl_gl_account gl_accounts in
  let posting_dates := map a_posting_date actuals in
  let calendar_dates := map cal_calendar_date fiscal_calendar in
  check BudgetCostCenterRef (issubset (map b_cost_center_id budget) cc_ids);;
  check ActualsCostCenterRef (issubset (map a_cost_center_id actuals) cc_ids);;
  check BudgetGlRef (issubset (map b_gl_account budget) gl_codes);;
  check ActualsGlRef (issubset (map a_gl_account actuals) gl_codes);;
  ge ← compare_dates (fun d c => date_leb c d) ">="
         (date_min posting_dates) (date_min calendar_dates);
  check PostingDateMin ge;;
  le ← compare_dates date_leb "<="
         (date_max posting_dates) (date_max calendar_dates);
  check PostingDateMax le;;
  check BudgetGrainUnique (negb (any_true (duplicated (map budget_key budget))));;
  check BudgetNonNegative
        (forallb (fun b => Qle_bool 0 (b_budget_amount b)) budget).

(** ** File system, process and [main] *)

Record FS := {
  fs_dirs : gset string;
  fs_files : gmap string string
}.

(** [os.makedirs(path, exist_ok=True)] for a path of one component. *)
Definition makedirs (path : string) (fs : FS) : FS :=
  {| fs_dirs := {[path]} ∪ fs_dirs fs; fs_files := fs_files fs |}.

Definition write_file (path content : string) (fs : FS) : FS :=
  {| fs_dirs := fs_dirs fs; fs_files := <[path := content]> (fs_files fs) |}.

(** [os.path.join(a, b)] for a relative [b]. *)
Definition path_join (a b : string) : string :=
  if String.eqb a "" then b
  else if String.eqb (String.substring (String.length a - 1) 1 a) "/"
       then a +:+ b
       else a +:+ "/" +:+ b.

Inductive Table :=
| CostCenters (rows : list CostCenter)
| GLAccounts (rows : list GLAccount)
| FiscalCalendar (rows : list CalendarDay)
| Budget (rows : list BudgetCell)
| Actuals (rows : list ActualPosting).

(** The five tables of a run. *)
Record Tables := {
  t_cost_centers : list CostCenter;
  t_gl_accounts : list GLAccount;
  t_fiscal_calendar : list CalendarDay;
  t_budget : list BudgetCell;
  t_actuals : list ActualPosting
}.

(** Lines of the summary printed on standard output. *)
Inductive Line :=
| GeneratedDatasets
| RowCount (path : string) (rows : nat)
| DateRange (lo hi : option date).

Definition exn_message (e : Exn) : string :=
  match e with
  | ValueError m => m
  | KeyError k => k
  | TypeError m => m
  | AssertionError _ => ""
  end.

(** The state of the process and of what surrounds it: the file system,
    the two output channels, and numpy's process-wide generator, which is
    part of every Python process that imports numpy. *)
Record World (G : Type) := {
  w_fs : FS;
  w_global_rng : G;
  w_stdout : list Line;
  w_stderr : list string
}.
Arguments w_fs {G} w.
Arguments w_global_rng {G} w.
Arguments w_stdout {G} w.
Arguments w_stderr {G} w.


Section Main.
Context {G : Type} `{Generator G}.
(** [DataFrame.to_csv(index=False)]: the bytes written for a table. *)
Variable to_csv : Table -> string.

(** Dimension building, generation and validation: the part of [main]
    between [os.makedirs] and the first [to_csv]. *)
Definition pipeline (cfg : Config) : Result Tables :=
  let rng := default_rng (seed cfg) in
  dims ← make_dimensions cfg;
  let cost_centers := dim_cost_centers dims in
  let gl_accounts := dim_gl_accounts dims in
  let fiscal_calendar := dim_fiscal_calendar dims in
  '(budget, rng1) ← generate_budget cfg cost_centers gl_accounts rng;
  '(actuals, rng2) ← generate_actuals cfg budget gl_accounts rng1;
  validate cost_centers gl_accounts fiscal_calendar budget actuals;;
  Ok {| t_cost_centers := cost_centers; t_gl_accounts := gl_accounts;
        t_fiscal_calendar := fiscal_calendar; t_budget := budget;
        t_actuals := actuals |}.

Definition write_tables (cfg : Config) (t : Tables) (fs : FS) : FS :=
  let w name tbl := write_file (path_join (out_dir cfg) name) (to_csv tbl) in
  w "finance_actuals.csv" (Actuals (t_actuals t))
    (w "finance_budget.csv" (Budget (t_budget t))
       (w "fiscal_calendar.csv" (FiscalCalendar (t_fiscal_calendar t))
          (w "gl_accounts.csv" (GLAccounts (t_gl_accounts t))
             (w "cost_centers.csv" (CostCenters (t_cost_centers t)) fs)))).

Definition summary (cfg : Config) (t : Tables) : list Line :=
  let posting_dates := map a_posting_date (t_actuals t) in
  [GeneratedDatasets;
   RowCount (out_dir cfg +:+ "/cost_centers.csv") (length (t_cost_centers t));
   RowCount (out_dir cfg +:+ "/gl_accounts.csv") (length (t_gl_accounts t));
   RowCount (out_dir cfg +:+ "/fiscal_calendar.csv")
            (length (t_fiscal_calendar t));
   RowCount (out_dir cfg +:+ "/finance_budget.csv") (length (t_budget t));
   RowCount (out_dir cfg +:+ "/finance_actuals.csv") (length (t_actuals t));
   DateRange (date_min posting_dates) (date_max posting_dates)].


(** The body of [main] for a configuration, run as the script does: an
    exception is caught at top level, printed on standard error, and the
    process exits with status 1.  The result is the world afterwards and
    the exit status. *)
Definition run (cfg : Config) (w : World G) : World G * Z :=
  let fs1 := makedirs (out_dir cfg) (w_fs w) in
  match pipeline cfg with
  | Ok t =>
      ({| w_fs := write_tables cfg t fs1;
          w_global_rng := w_global_rng w;
          w_stdout := w_stdout w ++ summary cfg t;
          w_stderr := w_stderr w |}, 0)
  | Raise e =>
      ({| w_fs := fs1;
          w_global_rng := w_global_rng w;
          w_stdout := w_stdout w;
          w_stderr := w_stderr w ++ ["Error: " +:+ exn_message e] |}, 1)
  end.

End Main.

(** ** A concrete generator

    A generator that replays a tape of recorded raw draws and, once the
    tape is used up, continues with a linear congruential sequence.  Each
    operation decodes raw draws into its result.  It is used to run the
    model on concrete inputs. *)

Module Replay.
Definition state : Type := list Z * Z.

Definition lcg_next (s : Z) : Z :=
  (6364136223846793005 * s + 1442695040888963407) mod 2 ^ 64.

Definition pop (g : state) : Z * state :=
  match fst g with
  | r :: tape => (r, (tape, snd g))
  | [] => ((snd g / 2 ^ 33) mod 2001, ([], lcg_next (snd g)))
  end.

Fixpoint pops (n : nat) (g : state) : list Z * state :=
  match n with
  | O => ([], g)
  | S n' =>
      let '(r, g1) := pop g in
      let '(rs, g2) := pops n' g1 in
      (r :: rs, g2)
  end.

Definition unit_of (r : Z) : Q := (r mod 1000) # 1000.

Definition random (g : state) : Q * state :=
  let '(r, g') := pop g in (unit_of r, g').

Definition normal (loc scale : Q) (g : state) : Q * state :=
  let '(r, g') := pop g in
  ((loc + scale * ((r - 1000) # 250))%Q, g').

Definition uniform (low high : Q) (g : state) : Q * state :=
  let '(r, g') := pop g in
  ((low + (high - low) * unit_of r)%Q, g').

Definition poisson (lam : Z) (g : state) : Z * state :=
  let '(r, g') := pop g in (r mod (2 * Z.max 0 lam + 1), g').

Definition pick {A} (a : list A) (r : Z) : list A :=
  match a !! Z.to_nat (r mod Z.of_nat (length a)) with
  | Some x => [x]
  | None => []
  end.

Definition choice (A : Type) (a : list A) (n : nat) (replace : bool)
    (g : state) : list A * state :=
  if replace
  then let '(rs, g') := pops n g in (concat (map (pick a) rs), g')
  else let '(r, g') := pop g in
       (take n (rotate (Z.to_nat (r mod Z.of_nat (length a))) a), g').

Definition choice_one (A : Type) (d : A) (a : list A) (g : state)
  : A * state :=
  let '(r, g') := pop g in
  (default d (a !! Z.to_nat (r mod Z.of_nat (length a))), g').

Definition shares (rs : list Z) : list Z := map (fun r => r mod 9 + 1) rs.

Definition dirichlet (n : nat) (g : state) : list Q * state :=
  let '(rs, g') := pops n g in
  let total := fold_right Z.add 0 (shares rs) in
  (map (fun x => (inject_Z x / inject_Z total)%Q) (shares rs), g').

#[global] Instance generator : Generator state := {|
  default_rng := fun seed => ([], seed mod 2 ^ 64);
  rng_random := random;
  rng_normal := normal;
  rng_uniform := uniform;
  rng_poisson := poisson;
  rng_choice := choice;
  rng_choice_one := choice_one;
  rng_dirichlet := dirichlet
|}.
End Replay.

(** ** Concrete configurations *)

(** A configuration with another date range, other table sizes and another
    sparse-omission probability. *)
Definition with_scenario (c : Config) (a b : date) (n_cc n_gl : Z)
    (sparse : Q) : Config := {|
  out_dir := out_dir c;
  seed := seed c;
  start_date := a;
  end_date := b;
  num_cost_centers := n_cc;
  num_gl_accounts := n_gl;
  avg_postings_opex_per_month := avg_postings_opex_per_month c;
  avg_postings_capex_per_month := avg_postings_capex_per_month c;
  max_postings_per_month := max_postings_per_month c;
  base_opex := base_opex c;
  base_capex := base_capex c;
  over_budget_cost_centers := over_budget_cost_centers c;
  under_budget_cost_centers := under_budget_cost_centers c;
  seasonal_q4_uplift := seasonal_q4_uplift c;
  seasonal_summer_uplift := seasonal_summer_uplift c;
  sparse_gl_probability := sparse;
  spike_probability := spike_probability c;
  spike_min := spike_min c;
  spike_max := spike_max c
|}.

(** January 2024, one cost center, one GL account, no sparse omission. *)
Definition jan_scenario (c : Config) : Config :=
  with_scenario c (Date 2024 1 1) (Date 2024 1 31) 1 1 0.

(** The same with a range that starts in the middle of the month. *)
Definition mid_month_config : Config :=
  with_scenario default_config (Date 2024 1 15) (Date 2024 1 31) 1 1 0.


(** The one cost center and the one GL account of [jan_scenario]. *)
Definition first_cost_center : CostCenter := {|
  cc_cost_center_id := "CC0001";
  cc_cost_center_name := "FP&A Cost Center";
  cc_department := "FP&A";
  cc_manager := "A. Patel";
  cc_parent_cost_center_id := None
|}.

Definition first_gl_account : GLAccount := {|
  gl_gl_account := "600000";
  gl_gl_name := "Salaries & Wages";
  gl_account_type := "OPEX";
  gl_gl_group := "Payroll"
|}.

(** A serialiser to run the model with: the number of rows of a table. *)
Definition row_count_csv (t : Table) : string :=
  match t with
  | CostCenters rows => str (Z.of_nat (length rows))
  | GLAccounts rows => str (Z.of_nat (length rows))
  | FiscalCalendar rows => str (Z.of_nat (length rows))
  | Budget rows => str (Z.of_nat (length rows))
  | Actuals rows => str (Z.of_nat (length rows))
  end.

(** The budget row of [jan_scenario default_config] when the noise draw is
    0.68: 3000 * 0.8 * 0.6 * 0.68 = 979.20. *)
Definition jan_budget_row : BudgetCell := {|
  b_fiscal_year := 2024;
  b_fiscal_period := 1;
  b_gl_account := "600000";
  b_cost_center_id := "CC0001";
  b_budget_amount := 97920 # 100
|}.

(** A world with nothing in it, for a generator type [G] started at [g]. *)
Definition empty_world {G} (g : G) : World G := {|
  w_fs := {| fs_dirs := ∅; fs_files := ∅ |};
  w_global_rng := g;
  w_stdout := [];
  w_stderr := []
|}.

(** ** Dates of the calendar *)

(** A date that exists: a month from 1 to 12 and a day of that month. *)
Definition valid_date (d : date) : Prop :=
  1 <= month d <= 12 /\ 1 <= day d <= days_in_month (year d) (month d).

(** Strictly earlier. *)
Definition date_lt (a b : date) : Prop := date_le a b /\ a <> b.

(** ** The grid of budget keys *)

(** One key for every month, cost center and GL account, in the order of
    the three loops of [generate_budget]. *)
Definition budget_grid (months : list period) (cc_ids gl_codes : list string)
  : list grain :=
  concat (map (fun p : period =>
    concat (map (fun cc : string =>
      map (fun gl : string => (fst p, snd p, gl, cc)) gl_codes) cc_ids))
    months).

(** ** The trend cohorts of [generate_actuals] *)

Section CohortsDraw.
Context {G : Type} `{Generator G}.

(** The two draws [generate_actuals] makes before its loop: the cost
    centers that trend over budget, then, among the others, the cost
    centers that trend under budget. *)
Definition draw_cohorts (cfg : Config) (budget : list BudgetCell) (g : G)
  : Result (Cohorts * G) :=
  let cc_ids := sorted_unique (map b_cost_center_id budget) in
  '(over, g1) ←
    np_choice cc_ids
      (Z.min (over_budget_cost_centers cfg) (Z.of_nat (length cc_ids)))
      false g;
  let over_set : gset string := list_to_set over in
  let remaining := filter (fun c => c ∉ over_set) cc_ids in
  '(under, g2) ←
    np_choice remaining
      (Z.min (under_budget_cost_centers cfg) (Z.of_nat (length remaining)))
      false g1;
  Ok ({| over_budget_cc := over_set;
         under_budget_cc := list_to_set under |}, g2).
End CohortsDraw.

(** A posting of the row of [jan_scenario], on the first day of the month. *)
Definition jan_posting : ActualPosting := {|
  a_posting_date := Date 2024 1 1;
  a_fiscal_year := 2024;
  a_fiscal_period := 1;
  a_gl_account := "600000";
  a_cost_center_id := "CC0001";
  a_actual_amount := 97920 # 100;
  a_document_type := "SA"
|}.

(** The configuration of [jan_scenario] with thirteen cost centers, one
    more than there are departments. *)
Definition thirteen_cost_centers_config : Config :=
  with_scenario default_config (Date 2024 1 1) (Date 2024 1 31) 13 18 0.

(** * Properties *)

(** ** Numbers and rounding *)

Lemma Qltb_lt (a b : Q) : Qltb a b = true <-> (a < b)%Q.
Proof.
  unfold Qltb. rewrite negb_true_iff.
  split; intros Hab.
  - apply Qnot_le_lt. intros Hle. apply Qle_bool_iff in Hle. congruence.
  - destruct (Qle_bool b a) eqn:E; [|reflexivity].
    apply Qle_bool_iff in E. lra.
Qed.

Lemma max0_nonneg (x : Q) : (0 <= max0 x)%Q.
Proof.
  unfold max0. destruct (Qltb 0 x) eqn:E; [|lra].
  apply Qltb_lt in E. lra.
Qed.

Lemma max0_pos (x : Q) : (0 < x)%Q -> max0 x = x.
Proof. intros Hx. unfold max0. apply Qltb_lt in Hx. now rewrite Hx. Qed.

Lemma max0_nonpos (x : Q) : (x <= 0)%Q -> max0 x = 0%Q.
Proof.
  intros Hx. unfold max0. destruct (Qltb 0 x) eqn:E; [|reflexivity].
  apply Qltb_lt in E. lra.
Qed.

Lemma Qfloor_bounds (q : Q) :
  (inject_Z (Qfloor q) <= q)%Q /\ (q < inject_Z (Qfloor q) + 1)%Q.
Proof.
  split; [apply Qfloor_le|].
  pose proof (Qlt_floor q) as Hlt.
  rewrite inject_Z_plus in Hlt. exact Hlt.
Qed.

Lemma round_half_even_near (q : Q) :
  (q - (1 # 2) <= inject_Z (round_half_even q))%Q
  /\ (inject_Z (round_half_even q) <= q + (1 # 2))%Q.
Proof.
  unfold round_half_even.
  destruct (Qfloor_bounds q) as [Hlo Hhi].
  generalize dependent (Qfloor q). intros f Hlo Hhi.
  destruct (Qcompare_spec (q - inject_Z f) (1 # 2)) as [He|Hl|Hg];
    [destruct (Z.even f)|..];
    rewrite ?inject_Z_plus; change (inject_Z 1) with 1%Q; split; lra.
Qed.

Lemma round_half_even_nonneg (q : Q) : (0 <= q)%Q -> 0 <= round_half_even q.
Proof.
  intros Hq. unfold round_half_even.
  assert (Hf : 0 <= Qfloor q).
  { change 0 with (Qfloor 0). now apply Qfloor_resp_le. }
  destruct (_ ?= _)%Q; [destruct (Z.even _)|..]; lia.
Qed.

Lemma round2_value (q : Q) :
  (round2 q == inject_Z (round_half_even (q * 100)) / 100)%Q.
Proof.
  unfold round2. rewrite (Qmake_Qdiv _ 100). reflexivity.
Qed.

Lemma round2_nonneg (q : Q) : (0 <= q)%Q -> (0 <= round2 q)%Q.
Proof.
  intros Hq. unfold round2, Qle. simpl.
  assert (0 <= round_half_even (q * 100)).
  { apply round_half_even_nonneg. nra. }
  lia.
Qed.

Lemma round2_near (q : Q) :
  (q - (1 # 200) <= round2 q)%Q /\ (round2 q <= q + (1 # 200))%Q.
Proof.
  rewrite round2_value.
  destruct (round_half_even_near (q * 100)) as [Hlo Hhi].
  generalize dependent (inject_Z (round_half_even (q * 100))).
  intros r Hlo Hhi.
  split.
  - apply Qle_shift_div_l; [reflexivity|]. lra.
  - apply Qle_shift_div_r; [reflexivity|]. lra.
Qed.


(** ** Loops *)

Section LoopFacts.
Context {G : Type}.

Lemma elem_of_for_each {A B} (body : A -> G -> list B * G) xs g x :
  x ∈ (for_each body xs g).1 ->
  exists a g1, a ∈ xs /\ x ∈ (body a g1).1.
Proof.
  revert g. induction xs as [|a xs IH]; intros g; simpl.
  - intros Hx. inversion Hx.
  - destruct (body a g) as [r1 g1] eqn:Eb.
    destruct (for_each body xs g1) as [r2 g2] eqn:Ef. simpl.
    intros [Hx|Hx]%elem_of_app.
    + exists a, g. rewrite Eb. split; [left|done].
    + destruct (IH g1) as (a' & g' & Ha & Hb); [by rewrite Ef|].
      exists a', g'. split; [by right|done].
Qed.


(** The rows of a loop that returned are the rows of its iterations, in
    order. *)
Lemma for_each_exn_split {A B} (body : A -> G -> Result (list B * G))
    xs g rows g' :
  for_each_exn body xs g = Ok (rows, g') ->
  exists parts : list (list B),
    rows = concat parts
    /\ Forall2 (fun a r => exists g1 g2, body a g1 = Ok (r, g2)) xs parts.
Proof.
  revert g rows. induction xs as [|a xs IH]; intros g rows; simpl.
  - intros [= <- <-]. exists []. split; [done|constructor].
  - destruct (body a g) as [[r1 g1]|e] eqn:E1; simpl; [|done].
    destruct (for_each_exn body xs g1) as [[r2 g2]|e] eqn:E2; simpl; [|done].
    intros [= <- <-].
    destruct (IH _ _ E2) as (parts & -> & HF).
    exists (r1 :: parts). split; [done|].
    constructor; [eauto|done].
Qed.
End LoopFacts.

Lemma elem_of_enumerate {A} (l : list A) i a :
  (i, a) ∈ enumerate l -> 0 <= i < Z.of_nat (length l) /\ l !! Z.to_nat i = Some a.
Proof.
  unfold enumerate. intros Hin.
  apply list_elem_of_lookup in Hin as [n Hn].
  apply lookup_zip_with_Some in Hn as (x & y & [= <- <-] & Hx & Hy).
  apply lookup_seqZ in Hx as [-> Hlt].
  split; [lia|]. replace (Z.to_nat (0 + Z.of_nat n)) with n by lia. done.
Qed.

(** ** Duplicate detection *)

Lemma duplicated_from_none {K} `{EqDecision K} (seen keys : list K) :
  count_true (duplicated_from seen keys) = O <->
  NoDup keys /\ (forall k, k ∈ keys -> k ∉ seen).
Proof.
  revert seen. induction keys as [|k ks IH]; intros seen; simpl.
  - split; [|done]. intros _. split; [constructor|]. intros k Hk. inversion Hk.
  - unfold count_true in *. rewrite filter_cons.
    destruct (bool_decide (k ∈ seen)) eqn:E.
    + apply bool_decide_eq_true in E.
      destruct (decide (true = true)); [|done]. simpl.
      split; [done|]. intros [_ Hd]. exfalso. apply (Hd k); [left|done].
    + apply bool_decide_eq_false in E.
      destruct (decide (false = true)); [done|].
      rewrite IH. split.
      * intros [Hnd Hd]. split.
        -- constructor; [|done]. intros Hk. apply (Hd k Hk). left.
        -- intros k' [->|Hk']%elem_of_cons; [done|].
           intros Hs. apply (Hd k' Hk'). by right.
      * intros [Hnd Hd]. apply NoDup_cons in Hnd as [Hk Hnd]. split; [done|].
        intros k' Hk' [->|Hs]%elem_of_cons; [done|].
        apply (Hd k'); [by right|done].
Qed.

Lemma duplicated_none {K} `{EqDecision K} (keys : list K) :
  count_true (duplicated keys) = O <-> NoDup keys.
Proof.
  unfold duplicated. rewrite duplicated_from_none.
  split; [tauto|]. intros Hnd. split; [done|]. intros k _ Hk. inversion Hk.
Qed.

Lemma any_true_count (l : list bool) :
  any_true l = false <-> count_true l = O.
Proof.
  unfold any_true, count_true. induction l as [|b l IH]; simpl; [done|].
  rewrite filter_cons. destruct b; simpl.
  - destruct (decide (true = true)); [|done]. simpl. split; done.
  - destruct (decide (false = true)); [done|]. exact IH.
Qed.

(** ** Budget synthesizer *)

Section BudgetFacts.
Context {G : Type} `{Generator G}.

(** C1. [generate_budget] returns exactly the rows it built when their
    grain keys are pairwise distinct, so a returned budget table has
    unique (fiscal_year, fiscal_period, gl_account, cost_center_id)
    keys; it raises, and then a [ValueError] reporting the number of
    duplicated rows, exactly when a key occurs twice among the rows it
    built. *)
Theorem generate_budget_unique_or_raises (cfg : Config)
    (cost_centers : list CostCenter) (gl_accounts : list GLAccount) (g : G) :
  let built := budget_rows cfg cost_centers gl_accounts g in
  let dupes := count_true (duplicated (map budget_key built.1)) in
  (forall r, generate_budget cfg cost_centers gl_accounts g = Ok r <->
             NoDup (map budget_key built.1) /\ r = built)
  /\ (forall r, generate_budget cfg cost_centers gl_accounts g = Ok r ->
                NoDup (map budget_key r.1))
  /\ (forall e, generate_budget cfg cost_centers gl_accounts g = Raise e <->
                ~ NoDup (map budget_key built.1)
                /\ e = ValueError ("Budget grain not unique; duplicates found: "
                                   +:+ str (Z.of_nat dupes))).
Proof.
  intros built dupes. subst dupes.
  assert (Hgen : generate_budget cfg cost_centers gl_accounts g =
    if negb (count_true (duplicated (map budget_key built.1)) =? 0)%nat
    then Raise (ValueError ("Budget grain not unique; duplicates found: "
           +:+ str (Z.of_nat (count_true (duplicated (map budget_key built.1))))))
    else Ok built).
  { unfold generate_budget. subst built.
    destruct (budget_rows cfg cost_centers gl_accounts g) as [b g']. done. }
  pose proof (duplicated_none (map budget_key built.1)) as Hd.
  destruct (count_true (duplicated (map budget_key built.1)) =? 0)%nat eqn:E;
    simpl in Hgen; rewrite Hgen.
  - apply Nat.eqb_eq in E. apply Hd in E.
    split; [|split].
    + intros r. split; [intros [= <-]; done|intros [_ ->]; done].
    + intros r [= <-]. done.
    + intros e. split; [done|]. intros [Hn _]. done.
  - apply Nat.eqb_neq in E.
    assert (Hn : ~ NoDup (map budget_key built.1)) by (intros Hn; apply E, Hd, Hn).
    split; [|split].
    + intros r. split; [done|]. intros [Hnd _]. done.
    + intros r. done.
    + intros e. split; [intros [= <-]; done|intros [_ ->]; done].
Qed.
End BudgetFacts.



Section BudgetAmount.
Context {G : Type} `{Generator G}.

Lemma budget_cell_row cfg sparse n_cc n_gl p cc_i cc gl_i gl (g : G) row :
  row ∈ (budget_cell cfg sparse n_cc n_gl p cc_i cc gl_i gl g).1 ->
  exists g1,
    row = {| b_fiscal_year := p.1; b_fiscal_period := p.2;
             b_gl_account := gl_gl_account gl; b_cost_center_id := cc;
             b_budget_amount :=
               round2 (max0 (base_of cfg (gl_account_type gl)
                             * cc_scale_of cc_i n_cc * gl_scale_of gl_i n_gl
                             * seasonal_of cfg p.2
                             * (rng_normal 1 (8 # 100) g1).1)) |}.
Proof.
  unfold budget_cell.
  destruct (if bool_decide (gl_gl_account gl ∈ sparse) then _ else _)
    as [skip g1] eqn:Es.
  destruct skip; simpl.
  - intros Hr. inversion Hr.
  - destruct (rng_normal 1 (8 # 100) g1) as [noise g2] eqn:En. simpl.
    intros ->%list_elem_of_singleton. exists g1. by rewrite En.
Qed.

End BudgetAmount.

Lemma elem_of_concat {A} (ls : list (list A)) (x : A) :
  x ∈ concat ls <-> exists l, l ∈ ls /\ x ∈ l.
Proof.
  induction ls as [|l ls IH]; simpl.
  - split; [intros Hx; inversion Hx|intros (l & Hl & _); inversion Hl].
  - rewrite elem_of_app, IH. split.
    + intros [Hx|(l' & Hl' & Hx)]; [exists l; split; [left|done]|].
      exists l'. split; [by right|done].
    + intros (l' & [->|Hl']%elem_of_cons & Hx); [by left|right; eauto].
Qed.

(** ** The replay generator satisfies the laws *)

Module ReplayFacts.
Import Replay.

Lemma pops_length n g : length (pops n g).1 = n.
Proof.
  revert g. induction n as [|n IH]; intros g; simpl; [done|].
  destruct (pop g) as [r g1]. specialize (IH g1).
  destruct (pops n g1) as [rs g2]. simpl in *. by rewrite IH.
Qed.

Lemma pick_elem_of {A} (a : list A) r x : x ∈ pick a r -> x ∈ a.
Proof.
  unfold pick. destruct (a !! _) as [y|] eqn:E.
  - intros ->%list_elem_of_singleton. by eapply list_elem_of_lookup_2.
  - intros Hx. inversion Hx.
Qed.

Lemma index_in_range {A} (a : list A) r :
  a <> [] -> (Z.to_nat (r mod Z.of_nat (length a)) < length a)%nat.
Proof.
  intros Ha. assert (0 < Z.of_nat (length a)) by (destruct a; simpl; [done|lia]).
  pose proof (Z.mod_pos_bound r (Z.of_nat (length a))). lia.
Qed.

Lemma pick_length {A} (a : list A) r : a <> [] -> length (pick a r) = 1%nat.
Proof.
  intros Ha. unfold pick.
  destruct (lookup_lt_is_Some_2 a _ (index_in_range a r Ha)) as [x ->]. done.
Qed.

Lemma picks_length {A} (a : list A) rs :
  a <> [] -> length (concat (map (pick a) rs)) = length rs.
Proof.
  intros Ha. induction rs as [|r rs IH]; simpl; [done|].
  rewrite length_app, pick_length, IH; done.
Qed.

Lemma rotate_NoDup {A} (a : list A) k : NoDup a -> NoDup (rotate k a).
Proof.
  intros Hnd. unfold rotate.
  rewrite <- (take_drop (k `mod` length a)%nat a) in Hnd.
  apply NoDup_app in Hnd as (H1 & H2 & H3).
  apply NoDup_app. split; [done|]. split; [|done].
  intros x Hx Hx'. by apply (H2 x).
Qed.

Lemma shares_pos rs x : x ∈ shares rs -> 1 <= x.
Proof.
  unfold shares. intros (r & -> & _)%list_elem_of_fmap.
  pose proof (Z.mod_pos_bound r 9). lia.
Qed.

Lemma shares_total_pos xs :
  (forall x, x ∈ xs -> 1 <= x) -> Z.of_nat (length xs) <= fold_right Z.add 0 xs.
Proof.
  induction xs as [|x xs IH]; intros Hx; simpl; [lia|].
  assert (1 <= x) by (apply Hx; left).
  assert (Z.of_nat (length xs) <= fold_right Z.add 0 xs).
  { apply IH. intros y Hy. apply Hx. by right. }
  lia.
Qed.

Lemma Qsum_scaled (xs : list Z) (t : Z) :
  (Qsum (map (fun x => inject_Z x / inject_Z t) xs)
   == inject_Z (fold_right Z.add 0%Z xs) / inject_Z t)%Q.
Proof.
  induction xs as [|x xs IH]; simpl.
  - unfold Qdiv. change (inject_Z 0) with 0%Q. lra.
  - rewrite IH, inject_Z_plus. unfold Qdiv. lra.
Qed.

#[global] Instance laws : GeneratorLaws state.
Proof.
  split.
  - intros g. simpl. unfold random. destruct (pop g) as [r g']. simpl.
    pose proof (Z.mod_pos_bound r 1000). unfold unit_of, Qle, Qlt. simpl. lia.
  - intros lam g. simpl. unfold poisson. destruct (pop g) as [r g']. simpl.
    pose proof (Z.mod_pos_bound r (2 * Z.max 0 lam + 1)). lia.
  - intros A a n r g Ha Hr. simpl. unfold choice. destruct r.
    + pose proof (pops_length n g) as Hl.
      destruct (pops n g) as [rs g']. simpl in *.
      destruct Ha as [Ha| ->].
      * by rewrite picks_length.
      * by destruct rs.
    + destruct Hr as [?|Hr]; [done|].
      destruct (pop g) as [k g']. simpl. rewrite length_take, length_rotate. lia.
  - intros A a n r g x. simpl. unfold choice. destruct r.
    + destruct (pops n g) as [rs g']. simpl.
      intros (l & Hl & Hx)%elem_of_concat.
      apply list_elem_of_fmap in Hl as (k & -> & _). by eapply pick_elem_of.
    + destruct (pop g) as [k g']. simpl.
      intros (i & Hi & _)%elem_of_take.
      eapply elem_of_rotate, list_elem_of_lookup_2, Hi.
  - intros A a n g Hnd. simpl. unfold choice.
    destruct (pop g) as [k g']. simpl.
    eapply sublist_NoDup; [|apply sublist_take]. by apply rotate_NoDup.
  - intros A d a g Ha. simpl. unfold choice_one.
    destruct (pop g) as [r g']. simpl.
    destruct (lookup_lt_is_Some_2 a _ (index_in_range a r Ha)) as [x Hx].
    rewrite Hx. simpl. by eapply list_elem_of_lookup_2.
  - intros n g. simpl. unfold dirichlet.
    pose proof (pops_length n g) as Hl.
    destruct (pops n g) as [rs g']. simpl in *.
    unfold shares. by rewrite !length_map.
  - intros n g w. simpl. unfold dirichlet.
    destruct (pops n g) as [rs g']. simpl.
    intros (x & -> & Hx)%list_elem_of_fmap.
    pose proof (shares_pos rs x Hx) as H1.
    pose proof (shares_total_pos (shares rs) (shares_pos rs)) as H2.
    apply Qle_shift_div_l.
    * unfold Qlt. simpl. apply list_elem_of_lookup in Hx as [i Hi].
      apply lookup_lt_Some in Hi. lia.
    * unfold Qle. simpl. lia.
  - intros n g Hn. simpl. unfold dirichlet.
    pose proof (pops_length n g) as Hl.
    destruct (pops n g) as [rs g']. simpl in *.
    rewrite Qsum_scaled.
    pose proof (shares_total_pos (shares rs) (shares_pos rs)) as H2.
    assert (0 < fold_right Z.add 0 (shares rs)).
    { unfold shares in H2 at 1. rewrite length_map in H2. lia. }
    unfold Qdiv. apply Qmult_inv_r. unfold Qeq. simpl. lia.
Qed.
End ReplayFacts.

(** ** Actuals synthesizer *)

Section ActualsFacts.
Context {G : Type} `{GeneratorLaws G}.

(** The inner loop emits one row per (date, amount) pair, in order. *)
Lemma posting_rows_spec fy fp gl cc (das : list (date * Q)) (g : G) :
let rows := (for_each (posting_row fy fp gl cc) das g).1 in
map a_posting_date rows = map fst das
/\ map a_actual_amount rows = map (fun da => round2 da.2) das
/\ Forall (fun r => actual_key r = (fy, fp, gl, cc)) rows.
Proof.
revert g. induction das as [|da das IH]; intros g; simpl.
- repeat split; constructor.
- destruct (posting_row fy fp gl cc da g) as [r1 g1] eqn:Er.
  unfold posting_row in Er.
  destruct (rng_choice_one "SA" doc_types g) as [doc g0].
  injection Er as <- <-.
  specialize (IH g0).
  destruct (for_each (posting_row fy fp gl cc) das g0) as [rs g2].
  simpl in *. destruct IH as (IH1 & IH2 & IH3).
  rewrite IH1, IH2. repeat split. by constructor.
Qed.

Lemma np_choice_ok {A} (a : list A) (size : Z) (replace : bool) (g : G) r :
np_choice a size replace g = Ok r ->
0 <= size
/\ (a <> [] \/ size = 0)
/\ (replace = true \/ size <= Z.of_nat (length a))
/\ r = rng_choice a (Z.to_nat size) replace g.
Proof.
unfold np_choice.
destruct ((length a =? 0)%nat && negb (size =? 0)) eqn:E1; [done|].
destruct (negb replace && (Z.of_nat (length a) <? size)) eqn:E2; [done|].
destruct (size <? 0) eqn:E3; [done|].
intros [= <-].
apply Z.ltb_ge in E3.
apply andb_false_iff in E1. apply andb_false_iff in E2.
repeat split; [done|..].
- destruct E1 as [E1|E1].
  + left. apply Nat.eqb_neq in E1. by destruct a.
  + right. apply negb_false_iff, Z.eqb_eq in E1. done.
- destruct E2 as [E2|E2].
  + left. by apply negb_false_iff in E2.
  + right. by apply Z.ltb_ge in E2.
Qed.

Lemma np_choice_total {A} (a : list A) (size : Z) (replace : bool) (g : G) :
0 <= size ->
a <> [] \/ size = 0 ->
replace = true \/ size <= Z.of_nat (length a) ->
np_choice a size replace g = Ok (rng_choice a (Z.to_nat size) replace g).
Proof.
intros Hsize Ha Hr. unfold np_choice.
replace ((length a =? 0)%nat && negb (size =? 0)) with false.
2:{ symmetry. apply andb_false_iff. destruct Ha as [Ha| ->].
    - left. apply Nat.eqb_neq. by destruct a.
    - by right. }
replace (negb replace && (Z.of_nat (length a) <? size)) with false.
2:{ symmetry. apply andb_false_iff. destruct Hr as [->|Hr].
    - by left.
    - right. by apply Z.ltb_ge. }
by rewrite (proj2 (Z.ltb_ge size 0)).
Qed.

(** What a cell of the grouped budget contributes when its iteration
  returns. *)
Lemma actual_cell_inv cfg co gl_type dbp (row : BudgetCell) (g : G) rows g' :
actual_cell cfg co gl_type dbp row g = Ok (rows, g') ->
exists (g1 g2 g3 : G) (dates : list date),
  let target := max0 (b_budget_amount row
                      * (multiplier cfg co (b_cost_center_id row) g).1) in
  let lam := lam_of cfg gl_type (b_gl_account row) in
  let n := np_clip (rng_poisson lam g1).1 1 (max_postings_per_month cfg) in
  let post_dates := (rng_choice dates (Z.to_nat n) true g2).1 in
  let weights := (rng_dirichlet (Z.to_nat n) g3).1 in
  0 <= lam
  /\ 0 <= n
  /\ dbp !! (b_fiscal_year row, b_fiscal_period row) = Some dates
  /\ length rows = Z.to_nat n
  /\ map a_posting_date rows = post_dates
  /\ map a_actual_amount rows = map (fun w => round2 (target * w)) weights
  /\ Forall (fun r => actual_key r = budget_key row) rows.
Proof.
unfold actual_cell, posting_count, np_poisson, period_dates.
destruct (multiplier cfg co (b_cost_center_id row) g) as [mult g1] eqn:Em.
destruct (lam_of cfg gl_type (b_gl_account row) <? 0) eqn:El;
  simpl; [intros [=]|].
apply Z.ltb_ge in El.
destruct (rng_poisson (lam_of cfg gl_type (b_gl_account row)) g1)
  as [k g2] eqn:Ek. simpl.
destruct (dbp !! _) as [dates|] eqn:Ed; simpl; [|intros [=]].
remember (np_clip k 1 (max_postings_per_month cfg)) as n eqn:En.
destruct (np_choice dates n true g2) as [[post_dates g3]|e] eqn:Ec;
  simpl; [|intros [=]].
apply np_choice_ok in Ec as (Hn & Ha & _ & Ec).
destruct (rng_dirichlet (Z.to_nat n) g3) as [weights g4] eqn:Ew.
intros [= Hrows]. exists g1, g2, g3, dates. simpl.
rewrite Ek. simpl. rewrite <- En, Ew, <- Ec. simpl.
assert (Hlp : length post_dates = Z.to_nat n).
{ replace post_dates with (rng_choice dates (Z.to_nat n) true g2).1
    by (by rewrite <- Ec).
  apply rng_choice_length; [|by left].
  destruct Ha as [Ha|Ha]; [by left|right; lia]. }
assert (Hlw : length weights = Z.to_nat n).
{ replace weights with (rng_dirichlet (Z.to_nat n) g3).1 by (by rewrite Ew).
  apply rng_dirichlet_length. }
pose proof (posting_rows_spec (b_fiscal_year row) (b_fiscal_period row)
  (b_gl_account row) (b_cost_center_id row)
  (zip post_dates (map (Qmult (max0 (b_budget_amount row * mult))) weights))
  g4) as Hspec.
rewrite Hrows in Hspec. simpl in Hspec. destruct Hspec as (H1 & H2 & H3).
repeat split; try done.
- rewrite <- (length_map a_posting_date), H1, length_map.
  rewrite length_zip_with, length_map. lia.
- rewrite H1. apply fst_zip. rewrite length_map. lia.
- rewrite H2.
  rewrite <- (map_map snd round2), snd_zip by (rewrite length_map; lia).
  by rewrite map_map.
Qed.
End ActualsFacts.

(** ** Dictionaries and grouping *)

Lemma dates_by_period_of_Some (months : list period) p ds :
  dates_by_period_of months !! p = Some ds ->
  p ∈ months /\ ds = dates_in_period p.
Proof.
  unfold dates_by_period_of, py_dict. intros Hl.
  apply elem_of_list_to_map_2 in Hl.
  apply elem_of_reverse, list_elem_of_fmap in Hl as (q & [= -> ->] & Hq).
  done.
Qed.


Lemma period_range_month (a b : date) p :
  p ∈ period_range a b -> 1 <= p.2 <= 12.
Proof.
  unfold period_range. intros (i & -> & _)%list_elem_of_fmap.
  unfold period_of_index. simpl. pose proof (Z.mod_pos_bound i 12). lia.
Qed.

Lemma days_in_month_pos y m : 1 <= m <= 12 -> 28 <= days_in_month y m <= 31.
Proof.
  intros Hm. unfold days_in_month.
  assert (m = 1 \/ m = 2 \/ m = 3 \/ m = 4 \/ m = 5 \/ m = 6 \/ m = 7 \/ m = 8
          \/ m = 9 \/ m = 10 \/ m = 11 \/ m = 12) as Hc by lia.
  repeat (destruct Hc as [->|Hc]); try lia; try (destruct (is_leap y); lia).
  subst. lia.
Qed.


Lemma groupby_sum_keys (budget : list BudgetCell) :
  map budget_key (groupby_sum budget)
  = merge_sort grain_le (remove_dups (map budget_key budget)).
Proof.
  unfold groupby_sum. rewrite map_map.
  rewrite <- (map_id (merge_sort _ _)) at 2.
  apply map_ext. intros [[[fy fp] gl] cc]. done.
Qed.

Lemma groupby_sum_NoDup (budget : list BudgetCell) :
  NoDup (map budget_key (groupby_sum budget)).
Proof.
  rewrite groupby_sum_keys, merge_sort_Permutation.
  apply NoDup_remove_dups.
Qed.

Lemma groupby_sum_key_elem (budget : list BudgetCell) cell :
  cell ∈ groupby_sum budget ->
  exists b, b ∈ budget /\ budget_key b = budget_key cell.
Proof.
  intros Hc.
  assert (Hk : budget_key cell ∈ map budget_key (groupby_sum budget)).
  { apply list_elem_of_fmap. eauto. }
  rewrite groupby_sum_keys, merge_sort_Permutation in Hk.
  apply elem_of_remove_dups, list_elem_of_fmap in Hk as (b & Hb & Hin). eauto.
Qed.

(** ** The actuals table *)

Section ActualsTable.
Context {G : Type} `{GeneratorLaws G}.

(** A returned actuals table is the concatenation, in the order of the
    grouped budget, of what each cell contributed, all cells sharing the
    cohorts drawn before the loop. *)
Lemma generate_actuals_inv cfg budget gl_accounts (g : G) actuals g' :
  generate_actuals cfg budget gl_accounts g = Ok (actuals, g') ->
  exists (co : Cohorts) (parts : list (list ActualPosting)),
    actuals = concat parts
    /\ Forall2
         (fun cell rows => exists g1 g2,
            actual_cell cfg co (gl_type_of gl_accounts)
              (dates_by_period_of
                 (period_range (start_date cfg) (end_date cfg)))
              cell g1 = Ok (rows, g2))
         (groupby_sum budget) parts.
Proof.
  unfold generate_actuals.
  destruct (np_choice _ _ false g) as [[over g1]|e]; simpl; [|intros [=]].
  destruct (np_choice _ _ false g1) as [[under g2]|e]; simpl; [|intros [=]].
  intros Hloop. apply for_each_exn_split in Hloop as (parts & -> & HF).
  eauto.
Qed.

(** C6. Every posting amount of a returned actuals table is
    [round(target * w, 2)] for the target [max(0, budget * multiplier)]
    of its cell and a weight [w] of that cell's Dirichlet draw, whose
    weights are non-negative and sum to one; so no posting amount is
    negative. *)
Theorem actual_amounts_nonneg (cfg : Config) (budget : list BudgetCell)
    (gl_accounts : list GLAccount) (g : G)
    (actuals : list ActualPosting) (g' : G) :
  generate_actuals cfg budget gl_accounts g = Ok (actuals, g') ->
  forall a, a ∈ actuals ->
    exists (cell : BudgetCell) (mult : Q) (weights : list Q) (w : Q),
      cell ∈ groupby_sum budget
      /\ actual_key a = budget_key cell
      /\ w ∈ weights
      /\ (forall v, v ∈ weights -> (0 <= v)%Q)
      /\ (Qsum weights == 1)%Q
      /\ a_actual_amount a
         = round2 (max0 (b_budget_amount cell * mult) * w)
      /\ (0 <= max0 (b_budget_amount cell * mult))%Q
      /\ (0 <= a_actual_amount a)%Q.
Proof.
  intros Hgen a Ha.
  apply generate_actuals_inv in Hgen as (co & parts & -> & HF).
  apply elem_of_concat in Ha as (rows & Hrows & Ha).
  apply list_elem_of_lookup in Hrows as [i Hi].
  destruct (Forall2_lookup_r _ _ _ _ _ HF Hi) as (cell & Hc & g1 & g2 & Hcell).
  apply actual_cell_inv in Hcell
    as (ga & gb & gc & dates & Hlam & Hn & Hd & Hlen & Hdates & Hamt & Hkey).
  set (n := np_clip _ 1 _) in *.
  set (weights := (rng_dirichlet (Z.to_nat n) gc).1) in *.
  set (mult := (multiplier cfg co (b_cost_center_id cell) g1).1) in *.
  assert (Hpos : (0 < Z.to_nat n)%nat).
  { rewrite <- Hlen. destruct rows; [inversion Ha|simpl; lia]. }
  assert (Hin : a_actual_amount a ∈ map a_actual_amount rows).
  { apply list_elem_of_fmap. eauto. }
  rewrite Hamt in Hin. apply list_elem_of_fmap in Hin as (w & Hw & Hin).
  exists cell, mult, weights, w.
  assert (Hw0 : (0 <= w)%Q) by (eapply rng_dirichlet_nonneg; exact Hin).
  pose proof (max0_nonneg (b_budget_amount cell * mult)) as Ht.
  repeat split.
  - by eapply list_elem_of_lookup_2.
  - rewrite Forall_forall in Hkey. by apply Hkey.
  - done.
  - intros v Hv. eapply rng_dirichlet_nonneg. exact Hv.
  - by apply rng_dirichlet_sum.
  - done.
  - done.
  - rewrite Hw. apply round2_nonneg. nra.
Qed.
End ActualsTable.

(** ** Postings per cell *)

Lemma filter_key_all {A K} `{EqDecision K} (f : A -> K) (k : K) (l : list A) :
  Forall (fun a => f a = k) l -> filter (fun a => f a = k) l = l.
Proof.
  induction 1 as [|a l Ha _ IH]; [done|].
  rewrite filter_cons. destruct (decide (f a = k)); [|done]. by rewrite IH.
Qed.

Lemma filter_key_none {A K} `{EqDecision K} (f : A -> K) (k k' : K)
    (l : list A) :
  k <> k' -> Forall (fun a => f a = k) l -> filter (fun a => f a = k') l = [].
Proof.
  intros Hk. induction 1 as [|a l Ha _ IH]; [done|].
  rewrite filter_cons. destruct (decide (f a = k')); [congruence|done].
Qed.

(** In a table built cell by cell over distinct keys, the rows of a key are
    the rows its cell contributed. *)
Lemma filter_key_concat (cells : list BudgetCell)
    (parts : list (list ActualPosting)) :
  Forall2 (fun cell rows =>
             Forall (fun r => actual_key r = budget_key cell) rows)
          cells parts ->
  NoDup (map budget_key cells) ->
  forall i cell rows,
    cells !! i = Some cell -> parts !! i = Some rows ->
    filter (fun a => actual_key a = budget_key cell) (concat parts) = rows.
Proof.
  induction 1 as [|c rs cells parts Hc HF IH]; intros Hnd i cell rows Hi Hp.
  - by rewrite lookup_nil in Hi.
  - simpl in Hnd. apply NoDup_cons in Hnd as [Hnew Hnd].
    simpl. rewrite filter_app. destruct i as [|i]; simpl in Hi, Hp.
    + injection Hi as ->. injection Hp as ->.
      rewrite filter_key_all by done.
      assert (Hrest : filter (fun a => actual_key a = budget_key cell)
                             (concat parts) = []).
      { clear IH. induction HF as [|c' rs' cells parts Hc' HF IH']; [done|].
        simpl in Hnew, Hnd. apply NoDup_cons in Hnd as [_ Hnd].
        apply not_elem_of_cons in Hnew as [Hne Hnew].
        simpl. rewrite filter_app, (filter_key_none _ (budget_key c')) by done.
        by apply IH'. }
      by rewrite Hrest, app_nil_r.
    + rewrite (filter_key_none _ (budget_key c)); [by eapply IH|..|done].
      intros Heq. apply Hnew. rewrite Heq.
      apply list_elem_of_fmap. exists cell. split; [done|].
      by eapply list_elem_of_lookup_2.
Qed.

Lemma np_clip_range (x lo hi : Z) : lo <= hi -> lo <= np_clip x lo hi <= hi.
Proof. unfold np_clip. lia. Qed.


Section PostingCounts.
Context {G : Type} `{GeneratorLaws G}.



End PostingCounts.

(** ** The run: files, channels, exit status *)


Section RunFacts.
Context {G : Type} `{Generator G}.
Variable to_csv : Table -> string.







End RunFacts.

(** ** Posting dates *)

Lemma period_range_index (a b : date) p :
  p ∈ period_range a b ->
  exists i, p = period_of_index i /\ month_index a <= i <= month_index b.
Proof.
  unfold period_range. intros (i & -> & Hi)%list_elem_of_fmap.
  apply elem_of_seqZ in Hi. exists i. split; [done|lia].
Qed.

Lemma elem_of_dates_in_period p d :
  d ∈ dates_in_period p ->
  year d = p.1 /\ month d = p.2 /\ 1 <= day d <= days_in_month p.1 p.2.
Proof.
  unfold dates_in_period. intros (k & -> & Hk)%list_elem_of_fmap.
  apply elem_of_seqZ in Hk. simpl. repeat split; lia.
Qed.

Section PostingDates.
Context {G : Type} `{GeneratorLaws G}.

(** The dates of the postings of a returned actuals table are days of
    the posting's own (fiscal_year, fiscal_period), which is a month of
    the range: each date is one element of the month's day array, drawn
    by [rng.choice] with replacement. *)
Lemma posting_dates_in_period cfg budget gl_accounts (g : G) actuals g' :
  generate_actuals cfg budget gl_accounts g = Ok (actuals, g') ->
  forall a, a ∈ actuals ->
    (a_fiscal_year a, a_fiscal_period a)
      ∈ period_range (start_date cfg) (end_date cfg)
    /\ a_posting_date a
         ∈ dates_in_period (a_fiscal_year a, a_fiscal_period a).
Proof.
  intros Hgen a Ha.
  apply generate_actuals_inv in Hgen as (co & parts & -> & HF).
  apply elem_of_concat in Ha as (rows & Hrows & Ha).
  apply list_elem_of_lookup in Hrows as [i Hi].
  destruct (Forall2_lookup_r _ _ _ _ _ HF Hi)
    as (cell & Hc & g1 & g2 & Hcell).
  apply actual_cell_inv in Hcell
    as (ga & gb & gc & dates & _ & _ & Hd & _ & Hdates & _ & Hkey).
  rewrite Forall_forall in Hkey. specialize (Hkey a Ha).
  injection Hkey as -> -> _ _.
  apply dates_by_period_of_Some in Hd as [Hp ->].
  split; [done|].
  eapply rng_choice_In. rewrite <- Hdates.
  apply list_elem_of_fmap. eauto.
Qed.

End PostingDates.

(** C4. With the range 2024-01-15 to 2024-01-31 (one cost center, one GL
    account) the generator seeded as configured returns an actuals table
    with a posting dated before [start_date]: the dates are drawn from all
    the days of January.  The run then stops at the validator's own
    assertion on the smallest posting date. *)
Theorem posting_date_before_start_date :
  exists (dims : Dimensions) (budget : list BudgetCell)
         (actuals : list ActualPosting) (g1 g2 : Replay.state),
    make_dimensions mid_month_config = Ok dims
    /\ generate_budget mid_month_config (dim_cost_centers dims)
         (dim_gl_accounts dims) (default_rng (seed mid_month_config))
       = Ok (budget, g1)
    /\ generate_actuals mid_month_config budget (dim_gl_accounts dims) g1
       = Ok (actuals, g2)
    /\ (exists a, a ∈ actuals
          /\ a_posting_date a = Date 2024 1 8
          /\ date_leb (start_date mid_month_config) (a_posting_date a)
             = false)
    /\ pipeline (G := Replay.state) mid_month_config
       = Raise (AssertionError PostingDateMin).
Proof.
  do 5 eexists.
  split; [vm_compute; reflexivity|].
  split; [vm_compute; reflexivity|].
  split; [vm_compute; reflexivity|].
  split; [|vm_compute; reflexivity].
  eexists. split; [left|]. split; reflexivity.
Qed.

(** ** Sum of the postings of a cell *)

Lemma max0_Qeq (x y : Q) : (x == y)%Q -> (max0 x == max0 y)%Q.
Proof.
  intros Hxy.
  destruct (Qlt_le_dec 0 x) as [Hx|Hx].
  - rewrite (max0_pos x Hx), (max0_pos y); [done|lra].
  - rewrite (max0_nonpos x Hx), (max0_nonpos y); [reflexivity|lra].
Qed.

Lemma Qsum_scale (t : Q) (ws : list Q) :
  (Qsum (map (Qmult t) ws) == t * Qsum ws)%Q.
Proof.
  induction ws as [|w ws IH]; simpl; [lra|]. rewrite IH. lra.
Qed.

Lemma Qsum_round2_near (l : list Q) :
  (Qsum l - inject_Z (Z.of_nat (length l)) * (1 # 200)
     <= Qsum (map round2 l))%Q
  /\ (Qsum (map round2 l)
     <= Qsum l + inject_Z (Z.of_nat (length l)) * (1 # 200))%Q.
Proof.
  induction l as [|x l [IHlo IHhi]].
  - simpl. change (inject_Z (Z.of_nat 0)) with 0%Q. split; lra.
  - change (length (x :: l)) with (S (length l)).
    rewrite Nat2Z.inj_succ, <- Z.add_1_r, inject_Z_plus.
    change (inject_Z 1) with 1%Q.
    destruct (round2_near x) as [Hlo Hhi]. simpl. split; lra.
Qed.

Section CellSum.
Context {G : Type} `{GeneratorLaws G}.

(** The rounded postings of a cell add up to the target of the cell, up
    to half a cent for each posting. *)
Lemma cell_postings_sum cfg co gl_type dbp (cell : BudgetCell) (g : G)
    rows g' :
  actual_cell cfg co gl_type dbp cell g = Ok (rows, g') ->
  rows <> [] ->
  let target := max0 (b_budget_amount cell
                      * (multiplier cfg co (b_cost_center_id cell) g).1) in
  let slack := (inject_Z (Z.of_nat (length rows)) * (1 # 200))%Q in
  (target - slack <= Qsum (map a_actual_amount rows))%Q
  /\ (Qsum (map a_actual_amount rows) <= target + slack)%Q.
Proof.
  intros Hcell Hne.
  apply actual_cell_inv in Hcell
    as (g1 & g2 & g3 & dates & _ & _ & _ & Hlen & _ & Hamt & _).
  simpl. rewrite Hamt.
  set (target := max0 _).
  set (n := np_clip _ 1 _) in *.
  set (weights := (rng_dirichlet (Z.to_nat n) g3).1) in *.
  assert (Hpos : (0 < Z.to_nat n)%nat).
  { rewrite <- Hlen. destruct rows; [done|simpl; lia]. }
  assert (Hsum : (Qsum weights == 1)%Q) by (by apply rng_dirichlet_sum).
  assert (Hlw : length rows = length (map (Qmult target) weights)).
  { rewrite length_map, Hlen. symmetry. apply rng_dirichlet_length. }
  rewrite <- (map_map (Qmult target) round2), Hlw.
  destruct (Qsum_round2_near (map (Qmult target) weights)) as [Hlo Hhi].
  rewrite Qsum_scale, Hsum in Hlo, Hhi.
  split; lra.
Qed.
End CellSum.

(** ** The single-cell scenario *)



Section JanScenario.
Context {G : Type} `{GeneratorLaws G}.



End JanScenario.



(** ** The validator on an empty actuals table *)


Lemma date_min_map_nil {A} (f : A -> date) (l : list A) :
  date_min (map f l) = None <-> l = [].
Proof. by destruct l. Qed.

Section AllSparse.
Context {G : Type} `{GeneratorLaws G}.

(** With a sparse-omission probability of at least one, a GL account of
    the sparse set never gets a budget row. *)
Lemma budget_cell_sparse cfg sparse n_cc n_gl p cc_i cc gl_i gl (g : G) :
  (1 <= sparse_gl_probability cfg)%Q ->
  gl_gl_account gl ∈ sparse ->
  (budget_cell cfg sparse n_cc n_gl p cc_i cc gl_i gl g).1 = [].
Proof.
  intros Hp Hgl. unfold budget_cell.
  rewrite bool_decide_eq_true_2 by done.
  pose proof (rng_random_range g) as [_ Hu].
  destruct (rng_random g) as [u g1]. simpl in Hu.
  rewrite (proj2 (Qltb_lt _ _)) by lra. done.
Qed.

Lemma for_each_nil {A B} (body : A -> G -> list B * G) xs g :
  (forall a g1, a ∈ xs -> (body a g1).1 = []) ->
  (for_each body xs g).1 = [].
Proof.
  revert g. induction xs as [|a xs IH]; intros g Hb; simpl; [done|].
  pose proof (Hb a g (list_elem_of_here _ _)) as Ha.
  destruct (body a g) as [r1 g1]. simpl in Ha. subst r1.
  specialize (IH g1 (fun a' g' Ha' => Hb a' g' (list_elem_of_further _ _ _ Ha'))).
  destruct (for_each body xs g1) as [r2 g2]. simpl in *. done.
Qed.

(** So a GL table made of sparse accounts only gives an empty budget. *)
Lemma budget_rows_all_sparse cfg cost_centers gl_accounts (g : G) :
  (1 <= sparse_gl_probability cfg)%Q ->
  (forall gl, gl ∈ gl_accounts -> gl_gl_account gl ∈ sparse_catalog) ->
  (budget_rows cfg cost_centers gl_accounts g).1 = [].
Proof.
  intros Hp Hall. unfold budget_rows.
  apply for_each_nil. intros p ga _.
  apply for_each_nil. intros [cc_i cc] gb _.
  apply for_each_nil. intros [gl_i gl] gc Hgl.
  apply budget_cell_sparse; [done|].
  apply elem_of_enumerate in Hgl as [_ Hgl].
  apply list_elem_of_lookup_2 in Hgl.
  unfold sparse_gls_of. apply elem_of_intersection. split.
  - apply elem_of_list_to_set. by apply Hall.
  - apply elem_of_list_to_set, list_elem_of_fmap. eauto.
Qed.

(** An empty budget gives an empty actuals table. *)
Lemma generate_actuals_nil cfg gl_accounts (g : G) :
  0 <= over_budget_cost_centers cfg ->
  0 <= under_budget_cost_centers cfg ->
  exists g', generate_actuals cfg [] gl_accounts g = Ok ([], g').
Proof.
  intros Hover Hunder. unfold generate_actuals.
  change (sorted_unique (map b_cost_center_id [])) with (@nil string).
  rewrite np_choice_total; [|simpl; lia|right; simpl; lia|right; simpl; lia].
  destruct (rng_choice _ _ false g) as [over g1]. simpl.
  rewrite np_choice_total; [|simpl; lia|right; simpl; lia|right; simpl; lia].
  destruct (rng_choice _ _ false g1) as [under g2]. simpl.
  change (groupby_sum []) with (@nil BudgetCell). simpl. eauto.
Qed.
End AllSparse.


(** ** The budget grain is unique by construction *)

Lemma period_of_index_inj (i j : Z) :
  period_of_index i = period_of_index j -> i = j.
Proof.
  unfold period_of_index. intros [= Hd Hm].
  rewrite (Z.div_mod i 12), (Z.div_mod j 12) by lia. lia.
Qed.

Lemma period_range_NoDup (a b : date) : NoDup (period_range a b).
Proof.
  unfold period_range. apply NoDup_fmap_2; [|apply NoDup_seqZ].
  intros i j. apply period_of_index_inj.
Qed.

Lemma enumerate_NoDup {A} (l : list A) : NoDup (enumerate l).
Proof.
  unfold enumerate. apply NoDup_alt. intros i j [n x] Hi Hj.
  apply lookup_zip_with_Some in Hi as (x1 & y1 & [= <- <-] & Hi & _).
  apply lookup_zip_with_Some in Hj as (x2 & y2 & [= E _] & Hj & _).
  apply lookup_seqZ in Hi as [-> _]. apply lookup_seqZ in Hj as [-> _]. lia.
Qed.

Lemma enumerate_snd_inj {A} (l : list A) i j a :
  NoDup l -> (i, a) ∈ enumerate l -> (j, a) ∈ enumerate l -> i = j.
Proof.
  intros Hnd [Hi Hli]%elem_of_enumerate [Hj Hlj]%elem_of_enumerate.
  pose proof (NoDup_lookup _ _ _ _ Hnd Hli Hlj). lia.
Qed.

Section Unique.
Context {G : Type} `{Generator G}.

(** A loop over distinct elements whose iterations emit rows with
    distinct keys, different from the keys of the other iterations,
    emits rows with distinct keys. *)
Lemma for_each_NoDup {A B K} (key : B -> K)
    (body : A -> G -> list B * G) xs (g : G) :
  NoDup xs ->
  (forall a g1, a ∈ xs -> NoDup (map key (body a g1).1)) ->
  (forall a a' g1 g2 r r',
     a ∈ xs -> a' ∈ xs -> a <> a' ->
     r ∈ (body a g1).1 -> r' ∈ (body a' g2).1 -> key r <> key r') ->
  NoDup (map key (for_each body xs g).1).
Proof.
  revert g. induction xs as [|a xs IH]; intros g Hnd Hin Hout; simpl.
  - constructor.
  - apply NoDup_cons in Hnd as [Ha Hnd].
    pose proof (Hin a g (list_elem_of_here _ _)) as Hhead.
    destruct (body a g) as [r1 g1] eqn:Eb.
    assert (Htail : NoDup (map key (for_each body xs g1).1)).
    { apply IH; [done|..].
      - intros a' g' Ha'. apply Hin. by right.
      - intros a1 a2 ga gb r r' H1 H2. apply Hout; by right. }
    destruct (for_each body xs g1) as [r2 g2] eqn:Ef. simpl in *.
    rewrite map_app. apply NoDup_app. split; [done|]. split; [|done].
    intros k (r & -> & Hr)%list_elem_of_fmap (r' & Hk & Hr')%list_elem_of_fmap.
    assert (Hr2 : r' ∈ (for_each body xs g1).1) by (by rewrite Ef).
    apply elem_of_for_each in Hr2 as (a' & g' & Ha' & Hr2).
    eapply (Hout a a' g g' r r'); [left|by right| |by rewrite Eb|done|done].
    intros ->. done.
Qed.

Lemma budget_cell_NoDup cfg sparse n_cc n_gl p cc_i cc gl_i gl (g : G) :
  NoDup (map budget_key
           (budget_cell cfg sparse n_cc n_gl p cc_i cc gl_i gl g).1).
Proof.
  unfold budget_cell.
  destruct (if bool_decide _ then _ else _) as [skip g1].
  destruct skip; simpl; [constructor|].
  destruct (rng_normal 1 (8 # 100) g1) as [noise g2]. simpl.
  apply NoDup_singleton.
Qed.

(** The rows built for distinct cost-center ids and distinct GL codes
    have distinct grain keys. *)
Lemma budget_rows_NoDup cfg cost_centers gl_accounts (g : G) :
  NoDup (map cc_cost_center_id cost_centers) ->
  NoDup (map gl_gl_account gl_accounts) ->
  NoDup (map budget_key (budget_rows cfg cost_centers gl_accounts g).1).
Proof.
  intros Hcc Hgl. unfold budget_rows.
  apply for_each_NoDup; [apply period_range_NoDup|..].
  - intros p ga _.
    apply for_each_NoDup; [apply enumerate_NoDup|..].
    + intros [cc_i cc] gb _.
      apply for_each_NoDup; [apply enumerate_NoDup|..].
      * intros [gl_i gl] gc _. apply budget_cell_NoDup.
      * intros [i1 gl1] [i2 gl2] g1 g2 r r' H1 H2 Hne Hr Hr'.
        apply budget_cell_row in Hr as [? ->].
        apply budget_cell_row in Hr' as [? ->].
        unfold budget_key. simpl. intros [= Hcode].
        apply elem_of_enumerate in H1 as [Hi1 H1].
        apply elem_of_enumerate in H2 as [Hi2 H2].
        assert (Hn : Z.to_nat i1 = Z.to_nat i2).
        { eapply NoDup_lookup; [exact Hgl|..];
            rewrite list_lookup_fmap; [by rewrite H1|by rewrite H2, Hcode]. }
        apply Hne. rewrite Hn in H1. f_equal; [lia|congruence].
    + intros [i1 cc1] [i2 cc2] g1 g2 r r' H1 H2 Hne Hr Hr'.
      apply elem_of_for_each in Hr as ([? ?] & ? & _ & Hr).
      apply elem_of_for_each in Hr' as ([? ?] & ? & _ & Hr').
      apply budget_cell_row in Hr as [? ->].
      apply budget_cell_row in Hr' as [? ->].
      unfold budget_key. simpl. intros [= _ ->].
      apply Hne. f_equal. exact (enumerate_snd_inj _ _ _ _ Hcc H1 H2).
  - intros p1 p2 g1 g2 r r' _ _ Hne Hr Hr'.
    apply elem_of_for_each in Hr as ([? ?] & ? & _ & Hr).
    apply elem_of_for_each in Hr' as ([? ?] & ? & _ & Hr').
    apply elem_of_for_each in Hr as ([? ?] & ? & _ & Hr).
    apply elem_of_for_each in Hr' as ([? ?] & ? & _ & Hr').
    apply budget_cell_row in Hr as [? ->].
    apply budget_cell_row in Hr' as [? ->].
    unfold budget_key. simpl. intros [= E1 E2 _ _].
    apply Hne. destruct p1, p2. simpl in *. congruence.
Qed.
End Unique.



Lemma py_take_sublist {A} (n : Z) (l : list A) : py_take n l `sublist_of` l.
Proof. unfold py_take. destruct (0 <=? n); apply sublist_take. Qed.

Lemma cost_center_rows_ids (ids names deps mgrs : list string)
    (parents : list (option string)) :
  length ids = length names -> length ids = length deps ->
  length ids = length mgrs -> length ids = length parents ->
  map cc_cost_center_id
      (map (fun '(i, n, d, m, p) => Build_CostCenter i n d m p)
           (zip (zip (zip (zip ids names) deps) mgrs) parents)) = ids.
Proof.
  revert names deps mgrs parents.
  induction ids as [|i ids IH]; intros [|n names] [|d deps] [|m mgrs]
    [|p parents]; simpl; try done.
  intros [= H1] [= H2] [= H3] [= H4]. f_equal. by apply IH.
Qed.


Section NeverRaises.
Context {G : Type} `{Generator G}.

Lemma generate_budget_of_NoDup cfg cost_centers gl_accounts (g : G) :
  NoDup (map budget_key (budget_rows cfg cost_centers gl_accounts g).1) ->
  generate_budget cfg cost_centers gl_accounts g
  = Ok (budget_rows cfg cost_centers gl_accounts g).
Proof.
  intros Hnd. apply duplicated_none in Hnd. unfold generate_budget.
  destruct (budget_rows cfg cost_centers gl_accounts g) as [b g'].
  simpl in Hnd. by rewrite Hnd.
Qed.

End NeverRaises.

(** ** The budget of the built dimensions is not empty *)



Section NonEmpty.
Context {G : Type} `{Generator G}.


End NonEmpty.

(** ** Two runs *)

(** A run that fails: the range that starts mid-month stops at the
    validator; no file is written, the directory exists. *)
Example run_mid_month_fails :
  let r := run row_count_csv mid_month_config
               (empty_world (default_rng 0 : Replay.state)) in
  r.2 = 1
  /\ fs_files (w_fs r.1) = ∅
  /\ fs_dirs (w_fs r.1) = {["finance_mvp_data"]}
  /\ w_stderr r.1 = ["Error: "]
  /\ w_stdout r.1 = [].
Proof. vm_compute. repeat split. Qed.

(** A run that succeeds: the January scenario writes the five files. *)
Example run_jan_scenario_succeeds :
  let r := run row_count_csv (jan_scenario default_config)
               (empty_world (default_rng 0 : Replay.state)) in
  r.2 = 0
  /\ fs_files (w_fs r.1) !! "finance_mvp_data/cost_centers.csv" = Some "1"
  /\ fs_files (w_fs r.1) !! "finance_mvp_data/gl_accounts.csv" = Some "1"
  /\ fs_files (w_fs r.1) !! "finance_mvp_data/fiscal_calendar.csv" = Some "31"
  /\ fs_files (w_fs r.1) !! "finance_mvp_data/finance_budget.csv" = Some "1"
  /\ fs_files (w_fs r.1) !! "finance_mvp_data/finance_actuals.csv" = Some "5"
  /\ w_stderr r.1 = [].
Proof. vm_compute. repeat split. Qed.

(** ** The theorems at concrete inputs *)


(** Non-negative amounts on the actuals of the January row. *)
Lemma actual_amounts_nonneg_witness :
  exists (actuals : list ActualPosting) (g' : Replay.state),
    generate_actuals (jan_scenario default_config) [jan_budget_row]
      [first_gl_account] (default_rng 7) = Ok (actuals, g')
    /\ actuals <> []
    /\ forall a, a ∈ actuals -> (0 <= a_actual_amount a)%Q.
Proof.
  destruct (generate_actuals (jan_scenario default_config) [jan_budget_row]
              [first_gl_account] (default_rng 7 : Replay.state))
    as [[actuals g']|e] eqn:E; [|vm_compute in E; discriminate E].
  exists actuals, g'. split; [reflexivity|]. split.
  - vm_compute in E. injection E as <- _. discriminate.
  - intros a Ha.
    destruct (actual_amounts_nonneg _ _ _ _ _ _ E a Ha)
      as (cell & mult & weights & w & _ & _ & _ & _ & _ & _ & _ & Hn).
    exact Hn.
Defined.


(** ** The order of dates *)

Lemma date_le_spec (a b : date) :
  date_le a b <->
  year a < year b
  \/ (year a = year b
      /\ (month a < month b \/ (month a = month b /\ day a <= day b))).
Proof.
  unfold date_le, date_leb.
  rewrite !orb_true_iff, !andb_true_iff, !orb_true_iff, !andb_true_iff.
  rewrite !Z.ltb_lt, !Z.eqb_eq, Z.leb_le. tauto.
Qed.

Lemma date_eq_fields (a b : date) :
  a = b <-> year a = year b /\ month a = month b /\ day a = day b.
Proof.
  split; [by intros ->|]. destruct a, b. simpl. by intros (-> & -> & ->).
Qed.

Lemma date_lt_spec (a b : date) :
  date_lt a b <->
  year a < year b
  \/ (year a = year b
      /\ (month a < month b \/ (month a = month b /\ day a < day b))).
Proof.
  unfold date_lt. rewrite date_le_spec, date_eq_fields. lia.
Qed.

Lemma date_le_refl (a : date) : date_le a a.
Proof. apply date_le_spec. lia. Qed.

Lemma date_le_trans (a b c : date) : date_le a b -> date_le b c -> date_le a c.
Proof. rewrite !date_le_spec. lia. Qed.

Lemma date_le_total (a b : date) : date_le a b \/ date_le b a.
Proof. rewrite !date_le_spec. lia. Qed.

Lemma date_le_antisym (a b : date) : date_le a b -> date_le b a -> a = b.
Proof. rewrite !date_le_spec, date_eq_fields. lia. Qed.

Lemma date_le_lt_eq (a b : date) : date_le a b -> a = b \/ date_lt a b.
Proof.
  intros Hab. destruct (decide (a = b)) as [->|Hne]; [by left|by right].
Qed.

(** ** Smallest and largest date of a column *)

Lemma date_min_spec (l : list date) (m : date) :
  date_min l = Some m -> m ∈ l /\ forall x, x ∈ l -> date_le m x.
Proof.
  destruct l as [|d l]; [done|]. simpl. intros [= <-].
  assert (Hgen : forall (l : list date) (acc : date),
    let r := fold_left (fun m x => if date_leb x m then x else m) l acc in
    (r = acc \/ r ∈ l) /\ date_le r acc /\ forall x, x ∈ l -> date_le r x).
  { clear. induction l as [|y l IH]; intros acc; simpl.
    - split; [by left|]. split; [apply date_le_refl|].
      intros x Hx. inversion Hx.
    - destruct (date_leb y acc) eqn:E.
      + destruct (IH y) as (H1 & H2 & H3). split; [|split].
        * right. destruct H1 as [->|H1]; [left|by right].
        * by eapply date_le_trans.
        * intros x [->|Hx]%elem_of_cons; [done|by apply H3].
      + destruct (IH acc) as (H1 & H2 & H3). split; [|split].
        * destruct H1 as [H1|H1]; [by left|right; by right].
        * done.
        * intros x [->|Hx]%elem_of_cons; [|by apply H3].
          eapply date_le_trans; [exact H2|].
          destruct (date_le_total acc y) as [?|Hc]; [done|].
          unfold date_le in Hc. congruence. }
  destruct (Hgen l d) as (H1 & H2 & H3). split.
  - destruct H1 as [->|H1]; [left|by right].
  - intros x [->|Hx]%elem_of_cons; [done|by apply H3].
Qed.

Lemma date_max_spec (l : list date) (m : date) :
  date_max l = Some m -> m ∈ l /\ forall x, x ∈ l -> date_le x m.
Proof.
  destruct l as [|d l]; [done|]. simpl. intros [= <-].
  assert (Hgen : forall (l : list date) (acc : date),
    let r := fold_left (fun m x => if date_leb m x then x else m) l acc in
    (r = acc \/ r ∈ l) /\ date_le acc r /\ forall x, x ∈ l -> date_le x r).
  { clear. induction l as [|y l IH]; intros acc; simpl.
    - split; [by left|]. split; [apply date_le_refl|].
      intros x Hx. inversion Hx.
    - destruct (date_leb acc y) eqn:E.
      + destruct (IH y) as (H1 & H2 & H3). split; [|split].
        * right. destruct H1 as [->|H1]; [left|by right].
        * by eapply date_le_trans.
        * intros x [->|Hx]%elem_of_cons; [done|by apply H3].
      + destruct (IH acc) as (H1 & H2 & H3). split; [|split].
        * destruct H1 as [H1|H1]; [by left|right; by right].
        * done.
        * intros x [->|Hx]%elem_of_cons; [|by apply H3].
          eapply date_le_trans; [|exact H2].
          destruct (date_le_total y acc) as [?|Hc]; [done|].
          unfold date_le in Hc. congruence. }
  destruct (Hgen l d) as (H1 & H2 & H3). split.
  - destruct H1 as [->|H1]; [left|by right].
  - intros x [->|Hx]%elem_of_cons; [done|by apply H3].
Qed.

(** ** Ordinals and the next day *)

Lemma days_in_month_nonneg y m : 0 <= days_in_month y m.
Proof.
  unfold days_in_month.
  repeat (match goal with |- context [match ?x with _ => _ end] =>
            destruct x end); try lia.
Qed.

Lemma days_before_month_succ y m :
  1 <= m ->
  days_before_month y (m + 1) = days_before_month y m + days_in_month y m.
Proof.
  intros Hm. unfold days_before_month.
  replace (m + 1 - 1) with ((m - 1) + 1) by lia.
  rewrite seqZ_app by lia. rewrite map_app, fold_right_app.
  replace (1 + (m - 1)) with m by lia.
  change (seqZ m 1) with [m]. simpl.
  generalize (map (days_in_month y) (seqZ 1 (m - 1))).
  intros l. induction l as [|x l IH]; simpl; lia.
Qed.

Lemma days_before_month_1 y : days_before_month y 1 = 0.
Proof. done. Qed.

Lemma days_before_month_mono y m k :
  1 <= m -> 0 <= k -> days_before_month y m <= days_before_month y (m + k).
Proof.
  intros Hm Hk. revert k Hk.
  apply (natlike_ind (fun k => days_before_month y m
                               <= days_before_month y (m + k))).
  - by rewrite Z.add_0_r.
  - intros k Hk IH. replace (m + Z.succ k) with (m + k + 1) by lia.
    rewrite days_before_month_succ by lia.
    pose proof (days_in_month_nonneg y (m + k)). lia.
Qed.

Lemma days_before_month_13 y :
  days_before_month y 13 = 365 + (if is_leap y then 1 else 0).
Proof.
  unfold days_before_month. simpl. destruct (is_leap y); reflexivity.
Qed.

Lemma days_before_year_succ y :
  days_before_year (y + 1)
  = days_before_year y + 365 + (if is_leap y then 1 else 0).
Proof.
  unfold days_before_year, is_leap. cbv zeta.
  replace (y + 1 - 1) with y by lia.
  destruct (Z.eqb_spec (y mod 4) 0), (Z.eqb_spec (y mod 100) 0),
    (Z.eqb_spec (y mod 400) 0); simpl;
    Z.to_euclidean_division_equations; lia.
Qed.

Lemma days_before_year_mono y y' :
  y <= y' -> days_before_year y <= days_before_year y'.
Proof.
  intros Hy. unfold days_before_year. cbv zeta.
  Z.to_euclidean_division_equations. lia.
Qed.

Lemma toordinal_year_bounds (d : date) :
  valid_date d ->
  days_before_year (year d) < toordinal d <= days_before_year (year d + 1).
Proof.
  intros [Hm Hd]. unfold toordinal.
  pose proof (days_before_month_mono (year d) 1 (month d - 1)) as H1.
  replace (1 + (month d - 1)) with (month d) in H1 by lia.
  rewrite days_before_month_1 in H1.
  pose proof (days_before_month_succ (year d) (month d)) as H2.
  pose proof (days_before_month_mono (year d) (month d + 1)
                (12 - month d)) as H3.
  replace (month d + 1 + (12 - month d)) with 13 in H3 by lia.
  rewrite days_before_month_13 in H3.
  rewrite days_before_year_succ. lia.
Qed.

(** The ordinal is strictly increasing along the order of dates. *)
Lemma toordinal_lt (a b : date) :
  valid_date a -> valid_date b -> date_lt a b -> toordinal a < toordinal b.
Proof.
  intros Ha Hb Hlt. apply date_lt_spec in Hlt.
  destruct Hlt as [Hy|[Hy [Hm|[Hm Hd]]]].
  - pose proof (toordinal_year_bounds a Ha) as [_ H1].
    pose proof (toordinal_year_bounds b Hb) as [H2 _].
    pose proof (days_before_year_mono (year a + 1) (year b)). lia.
  - destruct Ha as [Hma Hda], Hb as [Hmb Hdb]. unfold toordinal.
    rewrite Hy in *.
    pose proof (days_before_month_succ (year b) (month a)) as H1.
    pose proof (days_before_month_mono (year b) (month a + 1)
                  (month b - month a - 1)) as H2.
    replace (month a + 1 + (month b - month a - 1)) with (month b)
      in H2 by lia.
    lia.
  - unfold toordinal. rewrite Hy, Hm. lia.
Qed.

Lemma toordinal_le (a b : date) :
  valid_date a -> valid_date b -> date_le a b -> toordinal a <= toordinal b.
Proof.
  intros Ha Hb [->|Hlt]%date_le_lt_eq; [lia|].
  pose proof (toordinal_lt a b Ha Hb Hlt). lia.
Qed.

Lemma toordinal_inj (a b : date) :
  valid_date a -> valid_date b -> toordinal a = toordinal b -> a = b.
Proof.
  intros Ha Hb Heq.
  destruct (date_le_total a b) as [H|H];
    apply date_le_lt_eq in H as [?|Hlt]; try done.
  - pose proof (toordinal_lt a b Ha Hb Hlt). lia.
  - pose proof (toordinal_lt b a Hb Ha Hlt). lia.
Qed.

Lemma next_day_valid (d : date) : valid_date d -> valid_date (next_day d).
Proof.
  intros [Hm Hd]. unfold next_day, valid_date.
  destruct (Z.ltb_spec (day d) (days_in_month (year d) (month d))); simpl.
  - lia.
  - destruct (Z.ltb_spec (month d) 12); simpl.
    + pose proof (days_in_month_pos (year d) (month d + 1)). lia.
    + lia.
Qed.

Lemma next_day_toordinal (d : date) :
  valid_date d -> toordinal (next_day d) = toordinal d + 1.
Proof.
  intros [Hm Hd]. unfold next_day, toordinal.
  destruct (Z.ltb_spec (day d) (days_in_month (year d) (month d))); simpl.
  - lia.
  - destruct (Z.ltb_spec (month d) 12); simpl.
    + rewrite days_before_month_succ by lia. lia.
    + assert (month d = 12) as Hm12 by lia. rewrite Hm12 in *.
      rewrite days_before_year_succ, days_before_month_1.
      pose proof (days_before_month_succ (year d) 12) as H1.
      simpl in H1. rewrite days_before_month_13 in H1.
      change (days_in_month (year d) 12) with 31 in *. lia.
Qed.

(** ** The daily range *)

Lemma days_from_lookup (n k : nat) (d : date) :
  (k < n)%nat -> days_from n d !! k = Some (Nat.iter k next_day d).
Proof.
  revert k d. induction n as [|n IH]; intros k d Hk; [lia|].
  destruct k as [|k]; simpl; [done|].
  rewrite IH by lia. f_equal. clear.
  induction k as [|k IH]; simpl; [done|]. by rewrite IH.
Qed.

Lemma days_from_length (n : nat) (d : date) : length (days_from n d) = n.
Proof. revert d. induction n as [|n IH]; intros d; simpl; [done|]. by rewrite IH. Qed.

Lemma iter_next_day (k : nat) (d : date) :
  valid_date d ->
  valid_date (Nat.iter k next_day d)
  /\ toordinal (Nat.iter k next_day d) = toordinal d + Z.of_nat k.
Proof.
  intros Hd. induction k as [|k [IH1 IH2]]; simpl.
  - split; [done|lia].
  - split; [by apply next_day_valid|].
    rewrite next_day_toordinal by done. lia.
Qed.

(** An element of the range is a date that exists, at its position after
    the first day. *)
Lemma date_range_lookup (a b : date) (k : nat) (d : date) :
  valid_date a ->
  date_range a b !! k = Some d ->
  valid_date d /\ toordinal d = toordinal a + Z.of_nat k
  /\ toordinal d <= toordinal b.
Proof.
  intros Ha Hk. unfold date_range in Hk.
  pose proof (lookup_lt_Some _ _ _ Hk) as Hlt.
  rewrite days_from_length in Hlt.
  rewrite days_from_lookup in Hk by done. injection Hk as <-.
  destruct (iter_next_day k a Ha) as [H1 H2]. split; [done|]. lia.
Qed.

(** Between two dates that exist, the first not after the second, the
    range runs from the first to the second and holds every day between
    them. *)
Lemma date_range_cover (a b d : date) :
  valid_date a -> valid_date b -> valid_date d ->
  date_le a d -> date_le d b -> d ∈ date_range a b.
Proof.
  intros Ha Hb Hd Had Hdb.
  pose proof (toordinal_le a d Ha Hd Had) as H1.
  pose proof (toordinal_le d b Hd Hb Hdb) as H2.
  apply list_elem_of_lookup.
  exists (Z.to_nat (toordinal d - toordinal a)).
  unfold date_range. rewrite days_from_lookup by lia. f_equal.
  destruct (iter_next_day (Z.to_nat (toordinal d - toordinal a)) a Ha)
    as [H3 H4].
  apply toordinal_inj; [done|done|lia].
Qed.

Lemma date_range_head (a b : date) :
  valid_date a -> valid_date b -> date_le a b ->
  exists rest, date_range a b = a :: rest.
Proof.
  intros Ha Hb Hab. pose proof (toordinal_le a b Ha Hb Hab) as H1.
  unfold date_range.
  destruct (Z.to_nat (toordinal b - toordinal a + 1)) as [|n] eqn:E; [lia|].
  simpl. eauto.
Qed.

Lemma date_range_bounds (a b d : date) :
  valid_date a -> valid_date b -> d ∈ date_range a b ->
  valid_date d /\ date_le a d /\ date_le d b.
Proof.
  intros Ha Hb [k Hk]%list_elem_of_lookup.
  apply date_range_lookup in Hk as (Hd & H1 & H2); [|done].
  split; [done|]. split.
  - destruct (date_le_total a d) as [?|H]; [done|].
    apply date_le_lt_eq in H as [->|Hlt]; [apply date_le_refl|].
    pose proof (toordinal_lt d a Hd Ha Hlt). lia.
  - destruct (date_le_total d b) as [?|H]; [done|].
    apply date_le_lt_eq in H as [->|Hlt]; [apply date_le_refl|].
    pose proof (toordinal_lt b d Hb Hd Hlt). lia.
Qed.

(** ** The dimension builder *)

Lemma py_take_length {A} (n : Z) (l : list A) :
  length (py_take n l)
  = if 0 <=? n then Nat.min (Z.to_nat n) (length l)
    else Z.to_nat (Z.of_nat (length l) + n).
Proof.
  unfold py_take. destruct (Z.leb_spec 0 n); rewrite length_take; lia.
Qed.

Lemma cost_center_ids_length (n : Z) : length (cost_center_ids n) = Z.to_nat n.
Proof.
  unfold cost_center_ids, py_range. rewrite length_map, length_seqZ.
  f_equal. lia.
Qed.

(** The lengths of the five columns of the cost-center table agree exactly
    for 0 to 12 cost centers, and for -12 or fewer, where every column is
    empty. *)
Lemma cost_center_columns_agree (n : Z) :
  same_lengths
    [length (cost_center_ids n);
     length (map (fun d => d +:+ " Cost Center")
                 (py_take n department_catalog));
     length (py_take n department_catalog);
     length (py_take n manager_catalog);
     length (py_repeat (@None string) n)] = true
  <-> 0 <= n <= 12 \/ n <= -12.
Proof.
  unfold same_lengths, py_repeat. simpl forallb.
  rewrite length_map, !py_take_length, cost_center_ids_length,
    length_replicate.
  change (length department_catalog) with 12%nat.
  change (length manager_catalog) with 12%nat.
  rewrite !andb_true_iff, !Nat.eqb_eq.
  destruct (Z.leb_spec 0 n); lia.
Qed.

(** X1. [make_dimensions] returns exactly when [num_cost_centers] is
    between 0 and 12, or is -12 or less; for any other count (13 or more,
    or -11 to -1) the columns of the cost-center table differ in length
    and it raises the [ValueError] of the DataFrame constructor. *)
Theorem make_dimensions_outcome (cfg : Config) :
  let n := num_cost_centers cfg in
  ((0 <= n <= 12 \/ n <= -12) ->
     exists dims, make_dimensions cfg = Ok dims)
  /\ ((12 < n \/ -12 < n < 0) ->
     make_dimensions cfg
     = Raise (ValueError "All arrays must be of the same length")).
Proof.
  cbv zeta. pose proof (cost_center_columns_agree (num_cost_centers cfg)) as Hc.
  unfold make_dimensions.
  destruct (same_lengths _) eqn:E; simpl.
  - split; [eauto|]. intros Hn. apply proj1 in Hc. specialize (Hc eq_refl). lia.
  - split; [|done]. intros Hn. apply Hc in Hn. done.
Qed.

(** X2. The tables [make_dimensions] returns for 0 to 12 cost centers:
    that many cost centers, with the identifiers of [cost_center_ids] in
    order, each named after its department and without a parent; the
    first [num_gl_accounts] accounts of the catalog of 18 (all of it above
    18, and the catalog without its last accounts for a negative count);
    one calendar row for each day of the range. *)
Theorem make_dimensions_tables (cfg : Config) (dims : Dimensions) :
  0 <= num_cost_centers cfg ->
  make_dimensions cfg = Ok dims ->
  length (dim_cost_centers dims) = Z.to_nat (num_cost_centers cfg)
  /\ map cc_cost_center_id (dim_cost_centers dims)
     = cost_center_ids (num_cost_centers cfg)
  /\ (forall c, c ∈ dim_cost_centers dims ->
        cc_cost_center_name c = cc_department c +:+ " Cost Center"
        /\ cc_department c ∈ department_catalog
        /\ cc_manager c ∈ manager_catalog
        /\ cc_parent_cost_center_id c = None)
  /\ dim_gl_accounts dims `prefix_of` gl_catalog
  /\ length (dim_gl_accounts dims)
     = (if 0 <=? num_gl_accounts cfg
        then Nat.min (Z.to_nat (num_gl_accounts cfg)) 18
        else Z.to_nat (18 + num_gl_accounts cfg))
  /\ map cal_calendar_date (dim_fiscal_calendar dims)
     = date_range (start_date cfg) (end_date cfg)
  /\ length (dim_fiscal_calendar dims)
     = Z.to_nat (toordinal (end_date cfg) - toordinal (start_date cfg) + 1).
Proof.
  intros Hn. unfold make_dimensions.
  destruct (negb (same_lengths _)) eqn:E; [intros [=]|].
  intros [= <-]. simpl.
  apply negb_false_iff in E.
  pose proof E as Hlen. simpl in Hlen.
  rewrite !andb_true_iff, !Nat.eqb_eq in Hlen.
  destruct Hlen as (H1 & H2 & H3 & H4 & _). rewrite length_map in H1.
  rewrite cost_center_ids_length in *.
  split; [|split; [|split; [|split; [|split; [|split]]]]].
  - rewrite length_map, !length_zip_with, length_map, cost_center_ids_length.
    lia.
  - apply cost_center_rows_ids; rewrite ?length_map, cost_center_ids_length;
      lia.
  - intros c [k Hk]%list_elem_of_lookup.
    rewrite list_lookup_fmap in Hk.
    destruct (zip _ _ !! k) as [[[[[i nm] d] m] p]|] eqn:Hz; [|done].
    injection Hk as <-. simpl.
    apply lookup_zip_with_Some in Hz as (x1 & p' & [= <- <-] & Hz & Hp).
    apply lookup_zip_with_Some in Hz as (x2 & m' & [= <- <-] & Hz & Hm).
    apply lookup_zip_with_Some in Hz as (x3 & d' & [= <- <-] & Hz & Hd).
    apply lookup_zip_with_Some in Hz as (i' & n' & [= <- <-] & Hi & Hnm).
    rewrite list_lookup_fmap, Hd in Hnm. injection Hnm as <-.
    split; [done|]. split; [|split].
    + eapply elem_of_sublist; [|apply py_take_sublist].
      by eapply list_elem_of_lookup_2.
    + eapply elem_of_sublist; [|apply py_take_sublist].
      by eapply list_elem_of_lookup_2.
    + unfold py_repeat in Hp. by apply lookup_replicate in Hp as [-> _].
  - unfold py_take. destruct (0 <=? _); apply prefix_take.
  - rewrite py_take_length. done.
  - rewrite map_map. simpl. apply map_id.
  - rewrite length_map. unfold date_range. apply days_from_length.
Qed.

Lemma make_dimensions_calendar (cfg : Config) (dims : Dimensions) :
  make_dimensions cfg = Ok dims ->
  dim_fiscal_calendar dims
  = map calendar_row (date_range (start_date cfg) (end_date cfg)).
Proof.
  unfold make_dimensions.
  destruct (negb (same_lengths _)); [intros [=]|]. by intros [= <-].
Qed.

Lemma date_range_elem (a b d : date) :
  valid_date a -> valid_date b ->
  d ∈ date_range a b <-> valid_date d /\ date_le a d /\ date_le d b.
Proof.
  intros Ha Hb. split.
  - by apply date_range_bounds.
  - intros (Hv & H1 & H2). by apply date_range_cover.
Qed.

Lemma date_range_min (a b : date) :
  valid_date a -> valid_date b -> date_le a b ->
  date_min (date_range a b) = Some a.
Proof.
  intros Ha Hb Hab.
  destruct (date_range_head _ _ Ha Hb Hab) as [rest Hr].
  destruct (date_min (date_range a b)) as [m|] eqn:Em; [|by rewrite Hr in Em].
  apply date_min_spec in Em as [Hm Hall]. f_equal.
  apply date_le_antisym.
  - apply Hall, date_range_elem; try done.
    split; [done|]. split; [apply date_le_refl|done].
  - by apply date_range_elem in Hm as (_ & ? & _).
Qed.

Lemma date_range_max (a b : date) :
  valid_date a -> valid_date b -> date_le a b ->
  date_max (date_range a b) = Some b.
Proof.
  intros Ha Hb Hab.
  destruct (date_range_head _ _ Ha Hb Hab) as [rest Hr].
  destruct (date_max (date_range a b)) as [m|] eqn:Em; [|by rewrite Hr in Em].
  apply date_max_spec in Em as [Hm Hall]. f_equal.
  apply date_le_antisym.
  - by apply date_range_elem in Hm as (_ & _ & ?).
  - apply Hall, date_range_elem; try done.
    split; [done|]. split; [done|apply date_le_refl].
Qed.

(** X3. For a range between two dates that exist, the first not after the
    second, the fiscal calendar holds exactly the days from [start_date]
    to [end_date], each once and in increasing order; its smallest date
    is [start_date] and its largest [end_date]; the fiscal year and period
    of a row are the year and month of its date, and the month-end flag
    marks the days followed by the first of a month. *)
Theorem fiscal_calendar_covers_range (cfg : Config) (dims : Dimensions) :
  make_dimensions cfg = Ok dims ->
  valid_date (start_date cfg) ->
  valid_date (end_date cfg) ->
  date_le (start_date cfg) (end_date cfg) ->
  let dates := map cal_calendar_date (dim_fiscal_calendar dims) in
  (forall d, d ∈ dates <->
     valid_date d /\ date_le (start_date cfg) d /\ date_le d (end_date cfg))
  /\ (forall i j di dj,
        dates !! i = Some di -> dates !! j = Some dj -> (i < j)%nat ->
        date_lt di dj)
  /\ date_min dates = Some (start_date cfg)
  /\ date_max dates = Some (end_date cfg)
  /\ (forall r, r ∈ dim_fiscal_calendar dims ->
        cal_fiscal_year r = year (cal_calendar_date r)
        /\ cal_fiscal_period r = month (cal_calendar_date r)
        /\ (cal_is_month_end r = true
            <-> day (next_day (cal_calendar_date r)) = 1)).
Proof.
  intros Hd Ha Hb Hab dates.
  assert (Hdates : dates = date_range (start_date cfg) (end_date cfg)).
  { subst dates. rewrite (make_dimensions_calendar _ _ Hd), map_map.
    apply map_id. }
  rewrite Hdates. clear dates Hdates.
  assert (Hin : forall d, d ∈ date_range (start_date cfg) (end_date cfg) <->
     valid_date d /\ date_le (start_date cfg) d /\ date_le d (end_date cfg)).
  { intros d. by apply date_range_elem. }
  split; [exact Hin|]. split; [|split; [|split]].
  - intros i j di dj Hi Hj Hij.
    apply date_range_lookup in Hi as (Hvi & Hoi & _); [|done].
    apply date_range_lookup in Hj as (Hvj & Hoj & _); [|done].
    destruct (date_le_total dj di) as [H|H].
    + pose proof (toordinal_le dj di Hvj Hvi H). lia.
    + apply date_le_lt_eq in H as [->|H]; [lia|done].
  - by apply date_range_min.
  - by apply date_range_max.
  - intros r Hr. rewrite (make_dimensions_calendar _ _ Hd) in Hr.
    apply list_elem_of_fmap in Hr as (d & -> & Hdr). simpl.
    split; [done|]. split; [done|].
    apply Hin in Hdr as ([Hm Hday] & _).
    unfold next_day. rewrite Z.eqb_eq.
    destruct (Z.ltb_spec (day d) (days_in_month (year d) (month d)));
      simpl; [lia|].
    destruct (month d <? 12); simpl; lia.
Qed.

(** ** The keys of the budget rows *)

Lemma enumerate_snd {A} (l : list A) : map snd (enumerate l) = l.
Proof.
  unfold enumerate. apply snd_zip. rewrite length_seqZ. lia.
Qed.

Lemma sublist_concat {A} (ls ks : list (list A)) :
  Forall2 sublist ls ks -> concat ls `sublist_of` concat ks.
Proof.
  induction 1 as [|l k ls ks Hl _ IH]; simpl; [done|].
  by apply sublist_app.
Qed.

Lemma concat_map_singleton {A B} (f : A -> B) (l : list A) :
  concat (map (fun a => [f a]) l) = map f l.
Proof. induction l as [|a l IH]; simpl; [done|]. by rewrite IH. Qed.


Section BudgetKeys.
Context {G : Type} `{Generator G}.

Lemma for_each_keys {A B K} (key : B -> K) (ks : A -> list K)
    (body : A -> G -> list B * G) xs (g : G) :
  (forall a g1, a ∈ xs -> map key (body a g1).1 = ks a) ->
  map key (for_each body xs g).1 = concat (map ks xs).
Proof.
  revert g. induction xs as [|a xs IH]; intros g Hb; simpl; [done|].
  pose proof (Hb a g (list_elem_of_here _ _)) as Ha.
  destruct (body a g) as [r1 g1].
  specialize (IH g1 (fun a' g' Ha' =>
                       Hb a' g' (list_elem_of_further _ _ _ Ha'))).
  destruct (for_each body xs g1) as [r2 g2]. simpl in *.
  by rewrite map_app, Ha, IH.
Qed.

Lemma for_each_keys_sublist {A B K} (key : B -> K) (ks : A -> list K)
    (body : A -> G -> list B * G) xs (g : G) :
  (forall a g1, a ∈ xs -> map key (body a g1).1 `sublist_of` ks a) ->
  map key (for_each body xs g).1 `sublist_of` concat (map ks xs).
Proof.
  revert g. induction xs as [|a xs IH]; intros g Hb; simpl; [done|].
  pose proof (Hb a g (list_elem_of_here _ _)) as Ha.
  destruct (body a g) as [r1 g1].
  specialize (IH g1 (fun a' g' Ha' =>
                       Hb a' g' (list_elem_of_further _ _ _ Ha'))).
  destruct (for_each body xs g1) as [r2 g2]. simpl in *.
  rewrite map_app. by apply sublist_app.
Qed.

(** A cell emits no row or the one row of its key. *)
Lemma budget_cell_keys cfg sparse n_cc n_gl p cc_i cc gl_i gl (g : G) :
  let keys := map budget_key
                  (budget_cell cfg sparse n_cc n_gl p cc_i cc gl_i gl g).1 in
  (keys = [] \/ keys = [(p.1, p.2, gl_gl_account gl, cc)])
  /\ (gl_gl_account gl ∉ sparse ->
      keys = [(p.1, p.2, gl_gl_account gl, cc)]).
Proof.
  unfold budget_cell. case_bool_decide as Hs.
  - destruct (rng_random g) as [u g1].
    destruct (Qltb u _); simpl.
    + split; [by left|done].
    + destruct (rng_normal 1 (8 # 100) g1) as [noise g2]. simpl.
      split; [by right|done].
  - destruct (rng_normal 1 (8 # 100) g) as [noise g2]. simpl.
    split; [by right|done].
Qed.

Lemma enumerate_for_each_keys {A B K} (key : B -> K) (ks : A -> list K)
    (body : Z * A -> G -> list B * G) (l : list A) (g : G) :
  (forall i a g1, (i, a) ∈ enumerate l ->
     map key (body (i, a) g1).1 = ks a) ->
  map key (for_each body (enumerate l) g).1 = concat (map ks l).
Proof.
  intros Hb.
  rewrite (for_each_keys key (fun ia => ks ia.2)).
  - by rewrite <- (map_map snd ks), enumerate_snd.
  - intros [i a] g1 Hia. by apply Hb.
Qed.

Lemma enumerate_for_each_keys_sublist {A B K} (key : B -> K)
    (ks : A -> list K) (body : Z * A -> G -> list B * G) (l : list A)
    (g : G) :
  (forall i a g1, (i, a) ∈ enumerate l ->
     map key (body (i, a) g1).1 `sublist_of` ks a) ->
  map key (for_each body (enumerate l) g).1 `sublist_of` concat (map ks l).
Proof.
  intros Hb.
  rewrite <- (enumerate_snd l) at 2. rewrite (map_map snd ks).
  apply (for_each_keys_sublist key (fun ia => ks ia.2)).
  intros [i a] g1 Hia. by apply Hb.
Qed.

(** The keys of the rows built are keys of the grid, in grid order. *)
Lemma budget_rows_keys_sublist cfg cost_centers gl_accounts (g : G) :
  map budget_key (budget_rows cfg cost_centers gl_accounts g).1
  `sublist_of`
  budget_grid (period_range (start_date cfg) (end_date cfg))
    (map cc_cost_center_id cost_centers)
    (map gl_gl_account gl_accounts).
Proof.
  unfold budget_rows, budget_grid.
  apply for_each_keys_sublist. intros p g1 _.
  apply enumerate_for_each_keys_sublist. intros cc_i cc g2 _.
  rewrite map_map.
  rewrite <- (concat_map_singleton
                (fun gl => (p.1, p.2, gl_gl_account gl, cc)) gl_accounts).
  apply enumerate_for_each_keys_sublist. intros gl_i gl g3 _.
  destruct (budget_cell_keys cfg (sparse_gls_of gl_accounts)
              (length (map cc_cost_center_id cost_centers))
              (length gl_accounts) p cc_i cc gl_i gl g3) as [[->| ->] _].
  - apply sublist_nil_l.
  - done.
Qed.
End BudgetKeys.

Lemma elem_of_sparse_gls_of (gl_accounts : list GLAccount) (code : string) :
  code ∈ sparse_gls_of gl_accounts <->
  code ∈ sparse_catalog /\ code ∈ map gl_gl_account gl_accounts.
Proof.
  unfold sparse_gls_of. by rewrite elem_of_intersection, !elem_of_list_to_set.
Qed.

Lemma concat_map_filter {A B} (P : A -> Prop) `{forall a, Decision (P a)}
    (f : A -> B) (l : list A) :
  concat (map (fun a => if decide (P a) then [f a] else []) l)
  = map f (filter P l).
Proof.
  induction l as [|a l IH]; simpl; [done|].
  rewrite filter_cons. destruct (decide (P a)); simpl; by rewrite IH.
Qed.

Lemma budget_grid_length (months : list period) (cc_ids gl_codes : list string) :
  length (budget_grid months cc_ids gl_codes)
  = (length months * length cc_ids * length gl_codes)%nat.
Proof.
  unfold budget_grid.
  assert (Hin : forall p : period,
    length (concat (map (fun cc : string =>
              map (fun gl : string => (p.1, p.2, gl, cc)) gl_codes) cc_ids))
    = (length cc_ids * length gl_codes)%nat).
  { intros p. induction cc_ids as [|c cs IH]; [done|].
    cbn [map concat]. rewrite length_app, length_map, IH.
    cbn [length]. lia. }
  induction months as [|p ms IH]; [done|].
  unfold grain in *. cbn [map concat]. rewrite length_app, IH, Hin.
  cbn [length]. lia.
Qed.

Section BudgetGrid.
Context {G : Type} `{GeneratorLaws G}.

Lemma for_each_keys_sublist_lower {A B K} (key : B -> K) (ks : A -> list K)
    (body : A -> G -> list B * G) xs (g : G) :
  (forall a g1, a ∈ xs -> ks a `sublist_of` map key (body a g1).1) ->
  concat (map ks xs) `sublist_of` map key (for_each body xs g).1.
Proof.
  revert g. induction xs as [|a xs IH]; intros g Hb; simpl; [done|].
  pose proof (Hb a g (list_elem_of_here _ _)) as Ha.
  destruct (body a g) as [r1 g1].
  specialize (IH g1 (fun a' g' Ha' =>
                       Hb a' g' (list_elem_of_further _ _ _ Ha'))).
  destruct (for_each body xs g1) as [r2 g2]. simpl in *.
  rewrite map_app. by apply sublist_app.
Qed.

Lemma budget_cell_keys_no_omission cfg sparse n_cc n_gl p cc_i cc gl_i gl
    (g : G) :
  (sparse_gl_probability cfg <= 0)%Q ->
  map budget_key (budget_cell cfg sparse n_cc n_gl p cc_i cc gl_i gl g).1
  = [(p.1, p.2, gl_gl_account gl, cc)].
Proof.
  intros Hp. unfold budget_cell. case_bool_decide as Hs.
  - pose proof (rng_random_range g) as [Hu _].
    destruct (rng_random g) as [u g1]. simpl in Hu.
    destruct (Qltb u _) eqn:E; [apply Qltb_lt in E; lra|].
    destruct (rng_normal 1 (8 # 100) g1) as [noise g2]. done.
  - destruct (rng_normal 1 (8 # 100) g) as [noise g2]. done.
Qed.

(** The rows of the non-sparse accounts are always built. *)
Lemma budget_rows_keys_lower cfg cost_centers gl_accounts (g : G) :
  budget_grid (period_range (start_date cfg) (end_date cfg))
    (map cc_cost_center_id cost_centers)
    (filter (fun c => c ∉ sparse_catalog) (map gl_gl_account gl_accounts))
  `sublist_of`
  map budget_key (budget_rows cfg cost_centers gl_accounts g).1.
Proof.
  unfold budget_rows, budget_grid.
  apply for_each_keys_sublist_lower. intros p g1 _.
  rewrite <- (enumerate_snd (map cc_cost_center_id cost_centers)) at 1.
  rewrite map_map.
  apply for_each_keys_sublist_lower. intros [cc_i cc] g2 _. simpl.
  rewrite <- (concat_map_filter (fun c => c ∉ sparse_catalog)
                (fun gl : string => (p.1, p.2, gl, cc))).
  rewrite map_map.
  rewrite <- (enumerate_snd gl_accounts) at 1. rewrite map_map.
  apply for_each_keys_sublist_lower. intros [gl_i gl] g3 Hgl. simpl.
  destruct (decide (gl_gl_account gl ∉ sparse_catalog)) as [Hns|_];
    [|apply sublist_nil_l].
  destruct (budget_cell_keys cfg (sparse_gls_of gl_accounts)
              (length (map cc_cost_center_id cost_centers))
              (length gl_accounts) p cc_i cc gl_i gl g3) as [_ ->]; [done|].
  rewrite elem_of_sparse_gls_of. tauto.
Qed.

(** The keys of the rows built by the three loops, in append order. *)
Lemma budget_rows_keys_grid (cfg : Config) (cost_centers : list CostCenter)
    (gl_accounts : list GLAccount) (g : G) :
  let keys :=
    map budget_key (budget_rows cfg cost_centers gl_accounts g).1 in
  let months := period_range (start_date cfg) (end_date cfg) in
  let cc_ids := map cc_cost_center_id cost_centers in
  let codes := map gl_gl_account gl_accounts in
  let kept := filter (fun c => c ∉ sparse_catalog) codes in
  keys `sublist_of` budget_grid months cc_ids codes
  /\ budget_grid months cc_ids kept `sublist_of` keys
  /\ ((sparse_gl_probability cfg <= 0)%Q ->
      keys = budget_grid months cc_ids codes)
  /\ ((1 <= sparse_gl_probability cfg)%Q ->
      keys = budget_grid months cc_ids kept).
Proof.
  cbv zeta.
  split; [apply budget_rows_keys_sublist|].
  split; [apply budget_rows_keys_lower|]. split.
  - intros Hp. unfold budget_rows, budget_grid.
    apply for_each_keys. intros p g1 _.
    apply enumerate_for_each_keys. intros cc_i cc g2 _.
    rewrite map_map.
    rewrite <- (concat_map_singleton
                  (fun gl => (p.1, p.2, gl_gl_account gl, cc)) gl_accounts).
    apply enumerate_for_each_keys. intros gl_i gl g3 _.
    by apply budget_cell_keys_no_omission.
  - intros Hp. unfold budget_rows, budget_grid.
    apply for_each_keys. intros p g1 _.
    apply enumerate_for_each_keys. intros cc_i cc g2 _.
    rewrite <- (concat_map_filter (fun c => c ∉ sparse_catalog)
                  (fun gl : string => (p.1, p.2, gl, cc))).
    rewrite map_map.
    apply enumerate_for_each_keys. intros gl_i gl g3 Hgl.
    destruct (decide (gl_gl_account gl ∉ sparse_catalog)) as [Hns|Hs].
    + destruct (budget_cell_keys cfg (sparse_gls_of gl_accounts)
              (length (map cc_cost_center_id cost_centers))
              (length gl_accounts) p cc_i cc gl_i gl g3) as [_ ->]; [done|].
      rewrite elem_of_sparse_gls_of. tauto.
    + rewrite budget_cell_sparse; [done|done|].
      apply elem_of_sparse_gls_of. split.
      * destruct (decide (gl_gl_account gl ∈ sparse_catalog)); [done|].
        by destruct Hs.
      * apply elem_of_enumerate in Hgl as [_ Hgl].
        apply list_elem_of_fmap. exists gl. split; [done|].
        by eapply list_elem_of_lookup_2.
Qed.

(** X4. For cost centers with distinct ids and GL accounts with distinct
    codes [generate_budget] returns, and the keys of its rows, in row
    order, are taken from the grid of all (month, cost center, GL
    account) of the three loops and keep every key of an account outside
    the sparse set.  With a sparse-omission probability of 0 or less
    they are the whole grid, one row per month, cost center and account;
    with 1 or more they are exactly the grid of the accounts outside the
    sparse set. *)
Theorem generate_budget_grid (cfg : Config) (cost_centers : list CostCenter)
    (gl_accounts : list GLAccount) (g : G) :
  NoDup (map cc_cost_center_id cost_centers) ->
  NoDup (map gl_gl_account gl_accounts) ->
  exists (budget : list BudgetCell) (g' : G),
    generate_budget cfg cost_centers gl_accounts g = Ok (budget, g')
    /\ let keys := map budget_key budget in
       let months := period_range (start_date cfg) (end_date cfg) in
       let cc_ids := map cc_cost_center_id cost_centers in
       let codes := map gl_gl_account gl_accounts in
       let kept := filter (fun c => c ∉ sparse_catalog) codes in
       keys `sublist_of` budget_grid months cc_ids codes
       /\ budget_grid months cc_ids kept `sublist_of` keys
       /\ ((sparse_gl_probability cfg <= 0)%Q ->
           keys = budget_grid months cc_ids codes
           /\ length budget
              = (length months * length cost_centers
                 * length gl_accounts)%nat)
       /\ ((1 <= sparse_gl_probability cfg)%Q ->
           keys = budget_grid months cc_ids kept).
Proof.
  intros Hcc Hgl.
  pose proof (budget_rows_NoDup cfg cost_centers gl_accounts g Hcc Hgl)
    as Hnd.
  apply generate_budget_of_NoDup in Hnd.
  pose proof (budget_rows_keys_grid cfg cost_centers gl_accounts g)
    as (H1 & H2 & H3 & H4).
  destruct (budget_rows cfg cost_centers gl_accounts g) as [budget g'].
  exists budget, g'. split; [done|]. cbv zeta. simpl in *.
  split; [done|]. split; [done|]. split; [|done].
  intros Hp. specialize (H3 Hp). split; [done|].
  apply (f_equal length) in H3.
  by rewrite length_map, budget_grid_length, !length_map in H3.
Qed.
End BudgetGrid.

(** ** Trend cohorts and references of the actuals *)

Lemma elem_of_sorted_unique (l : list string) (x : string) :
  x ∈ sorted_unique l <-> x ∈ l.
Proof.
  unfold sorted_unique. rewrite merge_sort_Permutation.
  apply elem_of_remove_dups.
Qed.

Lemma sorted_unique_NoDup (l : list string) : NoDup (sorted_unique l).
Proof.
  unfold sorted_unique. rewrite merge_sort_Permutation.
  apply NoDup_remove_dups.
Qed.

(** The elements of a duplicate-free list outside a set of its elements. *)
Lemma filter_not_in_length (l : list string) (s : gset string) :
  NoDup l -> (forall x, x ∈ s -> x ∈ l) ->
  (length (filter (fun c => c ∉ s) l) + size s)%nat = length l.
Proof.
  intros Hnd Hs.
  rewrite <- (size_list_to_set (C := gset string) l) by done.
  rewrite <- (size_list_to_set (C := gset string) (filter _ l))
    by (by apply NoDup_filter).
  rewrite <- size_union.
  - f_equal. apply set_eq. intros x.
    rewrite elem_of_union, !elem_of_list_to_set, list_elem_of_filter.
    destruct (decide (x ∈ s)) as [Hx|Hx]; [specialize (Hs x Hx)|]; tauto.
  - intros x. rewrite elem_of_list_to_set, list_elem_of_filter. tauto.
Qed.

Lemma groupby_sum_elem_key (budget : list BudgetCell) (b : BudgetCell) :
  b ∈ budget ->
  exists cell, cell ∈ groupby_sum budget /\ budget_key cell = budget_key b.
Proof.
  intros Hb.
  assert (Hk : budget_key b ∈ map budget_key (groupby_sum budget)).
  { rewrite groupby_sum_keys, merge_sort_Permutation.
    apply elem_of_remove_dups, list_elem_of_fmap. eauto. }
  apply list_elem_of_fmap in Hk as (cell & Hk & Hc). eauto.
Qed.

Section Cohorts.
Context {G : Type} `{GeneratorLaws G}.

(** [generate_actuals] is the two cohort draws followed by the loop over
    the grouped budget. *)
Lemma generate_actuals_cohorts cfg budget gl_accounts (g : G) :
  generate_actuals cfg budget gl_accounts g
  = '(co, g2) ← draw_cohorts cfg budget g;
    for_each_exn
      (actual_cell cfg co (gl_type_of gl_accounts)
         (dates_by_period_of
            (period_range (start_date cfg) (end_date cfg))))
      (groupby_sum budget) g2.
Proof.
  unfold generate_actuals, draw_cohorts.
  destruct (np_choice _ _ false g) as [[over g1]|e]; simpl; [|done].
  destruct (np_choice _ _ false g1) as [[under g2]|e]; simpl; done.
Qed.



Lemma draw_cohorts_inv cfg budget (g : G) co g' :
  draw_cohorts cfg budget g = Ok (co, g') ->
  let n_ids := length (sorted_unique (map b_cost_center_id budget)) in
  0 <= over_budget_cost_centers cfg
  /\ 0 <= under_budget_cost_centers cfg
  /\ over_budget_cc co ## under_budget_cc co
  /\ (forall c, c ∈ over_budget_cc co ∪ under_budget_cc co ->
        c ∈ map b_cost_center_id budget)
  /\ Z.of_nat (size (over_budget_cc co))
     = Z.min (over_budget_cost_centers cfg) (Z.of_nat n_ids)
  /\ Z.of_nat (size (under_budget_cc co))
     = Z.min (under_budget_cost_centers cfg)
             (Z.of_nat n_ids - Z.of_nat (size (over_budget_cc co))).
Proof.
  unfold draw_cohorts.
  set (cc_ids := sorted_unique _).
  destruct (np_choice cc_ids _ false g) as [[over g1]|e] eqn:E1;
    simpl; [|intros [=]].
  set (remaining := filter _ cc_ids).
  destruct (np_choice remaining _ false g1) as [[under g2]|e] eqn:E2;
    simpl; [|intros [=]].
  intros [= <- <-]. simpl.
  apply np_choice_ok in E1 as (Hs1 & Ha1 & _ & E1).
  apply np_choice_ok in E2 as (Hs2 & Ha2 & _ & E2).
  pose proof (sorted_unique_NoDup (map b_cost_center_id budget)) as Hnd.
  fold cc_ids in Hnd.
  assert (Hover : over = (rng_choice cc_ids
     (Z.to_nat (Z.min (over_budget_cost_centers cfg)
                      (Z.of_nat (length cc_ids)))) false g).1)
    by (by rewrite <- E1).
  assert (Hunder : under = (rng_choice remaining
     (Z.to_nat (Z.min (under_budget_cost_centers cfg)
                      (Z.of_nat (length remaining)))) false g1).1)
    by (by rewrite <- E2).
  assert (Hin1 : forall c, c ∈ over -> c ∈ cc_ids).
  { intros c Hc. rewrite Hover in Hc. by eapply rng_choice_In. }
  assert (Hin2 : forall c, c ∈ under -> c ∈ remaining).
  { intros c Hc. rewrite Hunder in Hc. by eapply rng_choice_In. }
  assert (Hnd1 : NoDup over).
  { rewrite Hover. by apply rng_choice_NoDup. }
  assert (Hnd2 : NoDup under).
  { rewrite Hunder. apply rng_choice_NoDup. by apply NoDup_filter. }
  assert (Hl1 : length over
    = Z.to_nat (Z.min (over_budget_cost_centers cfg)
                      (Z.of_nat (length cc_ids)))).
  { rewrite Hover. apply rng_choice_length.
    - destruct Ha1 as [Ha1|Ha1]; [by left|right; lia].
    - right. lia. }
  assert (Hl2 : length under
    = Z.to_nat (Z.min (under_budget_cost_centers cfg)
                      (Z.of_nat (length remaining)))).
  { rewrite Hunder. apply rng_choice_length.
    - destruct Ha2 as [Ha2|Ha2]; [by left|right; lia].
    - right. lia. }
  pose proof (filter_not_in_length cc_ids (list_to_set over) Hnd) as Hrem.
  fold remaining in Hrem.
  rewrite size_list_to_set in Hrem by done.
  specialize (Hrem ltac:(intros x Hx; apply Hin1;
                         by apply elem_of_list_to_set in Hx)).
  split; [lia|]. split; [lia|]. split; [|split; [|split]].
  - intros c Hc1 Hc2. apply elem_of_list_to_set in Hc2.
    apply Hin2 in Hc2. apply list_elem_of_filter in Hc2 as [Hc2 _].
    done.
  - intros c [Hc|Hc]%elem_of_union; apply elem_of_list_to_set in Hc.
    + by apply elem_of_sorted_unique, Hin1.
    + apply Hin2, list_elem_of_filter in Hc as [_ Hc].
      by apply elem_of_sorted_unique.
  - rewrite size_list_to_set by done. lia.
  - rewrite !size_list_to_set by done. lia.
Qed.

(** X5. When [generate_actuals] returns, the loop over the grouped
    budget ran with the two cohorts drawn first: two disjoint sets of
    cost centers of the budget, the over-budget one of
    min(over_budget_cost_centers, number of cost centers) elements and
    the under-budget one of min(under_budget_cost_centers, number of
    the remaining cost centers) elements; the two configured sizes are
    not negative. *)
Theorem trend_cohorts_disjoint (cfg : Config) (budget : list BudgetCell)
    (gl_accounts : list GLAccount) (g : G)
    (actuals : list ActualPosting) (g' : G) :
  generate_actuals cfg budget gl_accounts g = Ok (actuals, g') ->
  exists (co : Cohorts) (g2 : G),
    let n_ids := length (sorted_unique (map b_cost_center_id budget)) in
    draw_cohorts cfg budget g = Ok (co, g2)
    /\ for_each_exn
         (actual_cell cfg co (gl_type_of gl_accounts)
            (dates_by_period_of
               (period_range (start_date cfg) (end_date cfg))))
         (groupby_sum budget) g2 = Ok (actuals, g')
    /\ 0 <= over_budget_cost_centers cfg
    /\ 0 <= under_budget_cost_centers cfg
    /\ over_budget_cc co ## under_budget_cc co
    /\ (forall c, c ∈ over_budget_cc co ∪ under_budget_cc co ->
          c ∈ map b_cost_center_id budget)
    /\ Z.of_nat (size (over_budget_cc co))
       = Z.min (over_budget_cost_centers cfg) (Z.of_nat n_ids)
    /\ Z.of_nat (size (under_budget_cc co))
       = Z.min (under_budget_cost_centers cfg)
               (Z.of_nat n_ids - Z.of_nat (size (over_budget_cc co))).
Proof.
  rewrite generate_actuals_cohorts.
  destruct (draw_cohorts cfg budget g) as [[co g2]|e] eqn:E;
    simpl; [|intros [=]].
  intros Hloop. exists co, g2. cbv zeta.
  split; [done|]. split; [done|].
  by apply draw_cohorts_inv in E.
Qed.
End Cohorts.

Section ActualsRows.
Context {G : Type} `{GeneratorLaws G}.

Lemma posting_rows_docs fy fp gl cc (das : list (date * Q)) (g : G) :
  Forall (fun r => a_document_type r ∈ doc_types)
         (for_each (posting_row fy fp gl cc) das g).1.
Proof.
  revert g. induction das as [|da das IH]; intros g; simpl; [constructor|].
  unfold posting_row at 1.
  pose proof (rng_choice_one_In _ "SA" doc_types g ltac:(done)) as Hdoc.
  destruct (rng_choice_one "SA" doc_types g) as [doc g0].
  specialize (IH g0).
  destruct (for_each (posting_row fy fp gl cc) das g0) as [rs g2].
  simpl in *. by constructor.
Qed.

Lemma actual_cell_docs cfg co gl_type dbp (row : BudgetCell) (g : G)
    rows g' :
  actual_cell cfg co gl_type dbp row g = Ok (rows, g') ->
  Forall (fun r => a_document_type r ∈ doc_types) rows.
Proof.
  unfold actual_cell.
  destruct (multiplier cfg co (b_cost_center_id row) g) as [mult g1].
  destruct (posting_count cfg _ g1) as [[n g2]|e]; simpl; [|intros [=]].
  destruct (period_dates dbp _) as [dates|e]; simpl; [|intros [=]].
  destruct (np_choice dates n true g2) as [[post_dates g3]|e];
    simpl; [|intros [=]].
  destruct (rng_dirichlet (Z.to_nat n) g3) as [weights g4].
  intros [= Hrows].
  pose proof (posting_rows_docs (b_fiscal_year row) (b_fiscal_period row)
    (b_gl_account row) (b_cost_center_id row)
    (zip post_dates (map (Qmult (max0 (b_budget_amount row * mult)))
                         weights)) g4) as Hd.
  by rewrite Hrows in Hd.
Qed.

(** The key of a posting is the key of a row of the budget. *)
Lemma actual_keys_in_budget cfg budget gl_accounts (g : G) actuals g' :
  generate_actuals cfg budget gl_accounts g = Ok (actuals, g') ->
  forall a, a ∈ actuals ->
    exists b, b ∈ budget /\ actual_key a = budget_key b.
Proof.
  intros Hgen a Ha.
  apply generate_actuals_inv in Hgen as (co & parts & -> & HF).
  apply elem_of_concat in Ha as (rows & Hrows & Ha).
  apply list_elem_of_lookup in Hrows as [i Hi].
  destruct (Forall2_lookup_r _ _ _ _ _ HF Hi)
    as (cell & Hc & g1 & g2 & Hcell).
  apply actual_cell_inv in Hcell
    as (ga & gb & gc & dates & _ & _ & _ & _ & _ & _ & Hkey).
  rewrite Forall_forall in Hkey. specialize (Hkey a Ha).
  apply list_elem_of_lookup_2 in Hc.
  apply groupby_sum_key_elem in Hc as (b & Hb & Hbk).
  exists b. split; [done|]. congruence.
Qed.


(** X6. Every posting of a returned actuals table carries the key of a
    row of the budget it was derived from, a document type of the fixed
    list, and a date that is a day of the posting's own fiscal year and
    period, a month of the configured range. *)
Theorem actual_postings_reference_budget (cfg : Config)
    (budget : list BudgetCell) (gl_accounts : list GLAccount) (g : G)
    (actuals : list ActualPosting) (g' : G) :
  generate_actuals cfg budget gl_accounts g = Ok (actuals, g') ->
  forall a, a ∈ actuals ->
    (exists b, b ∈ budget /\ actual_key a = budget_key b)
    /\ a_document_type a ∈ doc_types
    /\ (a_fiscal_year a, a_fiscal_period a)
         ∈ period_range (start_date cfg) (end_date cfg)
    /\ 1 <= a_fiscal_period a <= 12
    /\ year (a_posting_date a) = a_fiscal_year a
    /\ month (a_posting_date a) = a_fiscal_period a
    /\ 1 <= day (a_posting_date a)
         <= days_in_month (a_fiscal_year a) (a_fiscal_period a).
Proof.
  intros Hgen a Ha.
  destruct (posting_dates_in_period _ _ _ _ _ _ Hgen a Ha) as [Hp Hd].
  apply elem_of_dates_in_period in Hd as (Hy & Hm & Hday). simpl in *.
  pose proof (period_range_month _ _ _ Hp) as Hfp. simpl in Hfp.
  split; [by eapply actual_keys_in_budget|].
  apply generate_actuals_inv in Hgen as (co & parts & -> & HF).
  apply elem_of_concat in Ha as (rows & Hrows & Ha).
  apply list_elem_of_lookup in Hrows as [i Hi].
  destruct (Forall2_lookup_r _ _ _ _ _ HF Hi)
    as (cell & Hc & g1 & g2 & Hcell).
  pose proof (actual_cell_docs _ _ _ _ _ _ _ _ Hcell) as Hdocs.
  rewrite Forall_forall in Hdocs. specialize (Hdocs a Ha).
  repeat split; try done; lia.
Qed.
End ActualsRows.

Section ActualsOutcome.
Context {G : Type} `{GeneratorLaws G}.




End ActualsOutcome.

Lemma filter_key_absent {A K} `{EqDecision K} (f : A -> K) (l : list A)
    (k : K) :
  k ∉ map f l -> filter (fun x => f x = k) l = [].
Proof.
  induction l as [|x l IH]; intros Hk; [done|].
  simpl in Hk. apply not_elem_of_cons in Hk as [Hne Hk].
  rewrite filter_cons, decide_False by done. by apply IH.
Qed.

Lemma filter_key_unique {A K} `{EqDecision K} (f : A -> K) (l : list A)
    (b : A) :
  NoDup (map f l) -> b ∈ l -> filter (fun x => f x = f b) l = [b].
Proof.
  induction l as [|x l IH]; intros Hnd Hb; [by apply elem_of_nil in Hb|].
  simpl in Hnd. apply NoDup_cons in Hnd as [Hx Hnd].
  rewrite filter_cons. apply elem_of_cons in Hb as [->|Hb].
  - rewrite decide_True by done. f_equal. by apply filter_key_absent.
  - rewrite decide_False.
    + by apply IH.
    + intros Heq. apply Hx. rewrite Heq. apply list_elem_of_fmap. eauto.
Qed.

(** Grouping a budget whose keys are distinct keeps every row, with its
    amount. *)
Lemma groupby_sum_of_NoDup (budget : list BudgetCell) (b : BudgetCell) :
  NoDup (map budget_key budget) -> b ∈ budget ->
  exists cell, cell ∈ groupby_sum budget
    /\ budget_key cell = budget_key b
    /\ (b_budget_amount cell == b_budget_amount b)%Q.
Proof.
  intros Hnd Hb.
  destruct (groupby_sum_elem_key budget b Hb) as (cell & Hcell & Hk).
  exists cell. split; [done|]. split; [done|].
  unfold groupby_sum in Hcell.
  apply list_elem_of_fmap in Hcell as ([[[fy fp] gl] cc] & -> & _).
  assert (Hk' : (fy, fp, gl, cc) = budget_key b) by exact Hk.
  cbn [b_budget_amount].
  rewrite Hk', (filter_key_unique budget_key budget b) by done.
  simpl. lra.
Qed.

Section ActualsSum.
Context {G : Type} `{GeneratorLaws G}.

(** X8. For a maximum of at least one posting per cell and a budget
    with distinct keys, the postings of every budget row in a returned
    actuals table are at least one, and their amounts add up to the
    target of the row, max(0, budget_amount * multiplier) for the
    multiplier drawn with the cohorts of the run, up to 0.005 for each
    posting. *)
Theorem actuals_sum_near_target (cfg : Config) (budget : list BudgetCell)
    (gl_accounts : list GLAccount) (g : G)
    (actuals : list ActualPosting) (g' : G) :
  1 <= max_postings_per_month cfg ->
  NoDup (map budget_key budget) ->
  generate_actuals cfg budget gl_accounts g = Ok (actuals, g') ->
  exists (co : Cohorts) (g2 : G),
    draw_cohorts cfg budget g = Ok (co, g2)
    /\ forall b, b ∈ budget ->
         exists g1 : G,
           let postings :=
             filter (fun a => actual_key a = budget_key b) actuals in
           let mult := (multiplier cfg co (b_cost_center_id b) g1).1 in
           let target := max0 (b_budget_amount b * mult) in
           let slack :=
             (inject_Z (Z.of_nat (length postings)) * (1 # 200))%Q in
           1 <= Z.of_nat (length postings) <= max_postings_per_month cfg
           /\ (target - slack <= Qsum (map a_actual_amount postings))%Q
           /\ (Qsum (map a_actual_amount postings) <= target + slack)%Q.
Proof.
  intros Hmax Hnd. rewrite generate_actuals_cohorts.
  destruct (draw_cohorts cfg budget g) as [[co g2]|e] eqn:E;
    simpl; [|intros [=]].
  intros Hloop. exists co, g2. split; [done|]. intros b Hb.
  apply for_each_exn_split in Hloop as (parts & -> & HF).
  destruct (groupby_sum_of_NoDup budget b Hnd Hb)
    as (cell & Hcell & Hk & Hamt).
  apply list_elem_of_lookup in Hcell as [i Hi].
  destruct (Forall2_lookup_l _ _ _ _ _ HF Hi)
    as (rows & Hrows & g1 & g3 & Hc).
  exists g1. cbv zeta. rewrite <- Hk.
  rewrite (filter_key_concat (groupby_sum budget) parts) with (rows := rows)
    (i := i); try done.
  2:{ eapply Forall2_impl; [exact HF|]. simpl.
      intros c rs (gc & gd & Hc').
      by apply actual_cell_inv in Hc' as (?&?&?&?&?&?&?&?&?&?&?). }
  2:{ apply groupby_sum_NoDup. }
  pose proof Hc as Hlen.
  apply actual_cell_inv in Hlen
    as (ga & gb & gc & dates & _ & _ & _ & Hlen & _ & _ & _).
  simpl in Hlen.
  match type of Hlen with
  | _ = Z.to_nat (np_clip ?k 1 _) =>
      pose proof (np_clip_range k 1 _ Hmax) as Hn
  end.
  assert (Hne : rows <> []).
  { intros Hr. rewrite Hr in Hlen. simpl in Hlen. lia. }
  split; [lia|].
  pose proof (cell_postings_sum _ _ _ _ _ _ _ _ Hc Hne) as Hsum.
  simpl in Hsum.
  injection Hk as _ _ _ Hcc. rewrite Hcc in Hsum.
  assert (Ht : (max0 (b_budget_amount cell
                      * (multiplier cfg co (b_cost_center_id b) g1).1)
                == max0 (b_budget_amount b
                      * (multiplier cfg co (b_cost_center_id b) g1).1))%Q).
  { apply max0_Qeq. by rewrite Hamt. }
  revert Hsum Ht.
  generalize (max0 (b_budget_amount cell
                      * (multiplier cfg co (b_cost_center_id b) g1).1)).
  generalize (max0 (b_budget_amount b
                      * (multiplier cfg co (b_cost_center_id b) g1).1)).
  generalize (Qsum (map a_actual_amount rows)).
  generalize (inject_Z (Z.of_nat (length rows)) * (1 # 200))%Q.
  intros s q t t' [Hlo Hhi] Ht. split; lra.
Qed.
End ActualsSum.

(** ** The validator *)

Lemma issubset_spec (xs ys : list string) :
  issubset xs ys = true <-> forall x, x ∈ xs -> x ∈ ys.
Proof.
  unfold issubset. rewrite bool_decide_eq_true, elem_of_subseteq.
  split; intros Hs x; specialize (Hs x);
    rewrite !elem_of_list_to_set in *; done.
Qed.

Lemma not_duplicated_spec {K} `{EqDecision K} (keys : list K) :
  negb (any_true (duplicated keys)) = true <-> NoDup keys.
Proof.
  rewrite negb_true_iff, any_true_count. apply duplicated_none.
Qed.

Lemma forallb_nonneg (budget : list BudgetCell) :
  forallb (fun b => Qle_bool 0 (b_budget_amount b)) budget = true
  <-> forall b, b ∈ budget -> (0 <= b_budget_amount b)%Q.
Proof.
  rewrite forallb_forall. split; intros Hf b Hb.
  - apply Qle_bool_iff, Hf, list_elem_of_In, Hb.
  - apply Qle_bool_iff, Hf, list_elem_of_In, Hb.
Qed.

(** The smallest date of a column is not before the smallest of another
    exactly when every date of the first has one of the second at or
    before it. *)
Lemma date_min_ge_spec (ps cs : list date) (p c : date) :
  date_min ps = Some p -> date_min cs = Some c ->
  date_leb c p = true
  <-> forall d, d ∈ ps -> exists x, x ∈ cs /\ date_le x d.
Proof.
  intros [Hp Hpmin]%date_min_spec [Hc Hcmin]%date_min_spec. split.
  - intros Hcp d Hd. exists c. split; [done|].
    eapply date_le_trans; [exact Hcp|by apply Hpmin].
  - intros Hall. destruct (Hall p Hp) as (x & Hx & Hxp).
    eapply date_le_trans; [by apply Hcmin|exact Hxp].
Qed.

Lemma date_max_le_spec (ps cs : list date) (p c : date) :
  date_max ps = Some p -> date_max cs = Some c ->
  date_leb p c = true
  <-> forall d, d ∈ ps -> exists x, x ∈ cs /\ date_le d x.
Proof.
  intros [Hp Hpmax]%date_max_spec [Hc Hcmax]%date_max_spec. split.
  - intros Hpc d Hd. exists c. split; [done|].
    eapply date_le_trans; [by apply Hpmax|exact Hpc].
  - intros Hall. destruct (Hall p Hp) as (x & Hx & Hpx).
    eapply date_le_trans; [exact Hpx|by apply Hcmax].
Qed.

(** When [validate] returns, on a non-empty actuals table and calendar. *)
Lemma validate_outcome (cost_centers : list CostCenter)
    (gl_accounts : list GLAccount) (fiscal_calendar : list CalendarDay)
    (budget : list BudgetCell) (actuals : list ActualPosting) :
  actuals <> [] ->
  fiscal_calendar <> [] ->
  let cc_ids := map cc_cost_center_id cost_centers in
  let gl_codes := map gl_gl_account gl_accounts in
  let calendar_dates := map cal_calendar_date fiscal_calendar in
  (validate cost_centers gl_accounts fiscal_calendar budget actuals = Ok tt
   <-> ((forall b, b ∈ budget ->
           b_cost_center_id b ∈ cc_ids /\ b_gl_account b ∈ gl_codes
           /\ (0 <= b_budget_amount b)%Q)
        /\ NoDup (map budget_key budget)
        /\ (forall a, a ∈ actuals ->
              a_cost_center_id a ∈ cc_ids /\ a_gl_account a ∈ gl_codes
              /\ (exists c, c ∈ calendar_dates
                            /\ date_le c (a_posting_date a))
              /\ (exists c, c ∈ calendar_dates
                            /\ date_le (a_posting_date a) c))))
  /\ (forall e,
        validate cost_centers gl_accounts fiscal_calendar budget actuals
        = Raise e -> exists a, e = AssertionError a).
Proof.
  intros Ha Hc cc_ids gl_codes calendar_dates.
  unfold validate. fold cc_ids gl_codes calendar_dates.
  destruct (date_min (map a_posting_date actuals)) as [pmin|] eqn:Epmin;
    [|by destruct actuals].
  destruct (date_max (map a_posting_date actuals)) as [pmax|] eqn:Epmax;
    [|by destruct actuals].
  destruct (date_min calendar_dates) as [cmin|] eqn:Ecmin;
    [|by destruct fiscal_calendar].
  destruct (date_max calendar_dates) as [cmax|] eqn:Ecmax;
    [|by destruct fiscal_calendar].
  pose proof (issubset_spec (map b_cost_center_id budget) cc_ids) as H1.
  pose proof (issubset_spec (map a_cost_center_id actuals) cc_ids) as H2.
  pose proof (issubset_spec (map b_gl_account budget) gl_codes) as H3.
  pose proof (issubset_spec (map a_gl_account actuals) gl_codes) as H4.
  pose proof (date_min_ge_spec _ _ _ _ Epmin Ecmin) as H5.
  pose proof (date_max_le_spec _ _ _ _ Epmax Ecmax) as H6.
  pose proof (not_duplicated_spec (map budget_key budget)) as H7.
  pose proof (forallb_nonneg budget) as H8.
  assert (Hcol : forall {A} (f : A -> string) (l : list A) (ys : list string),
    (forall x, x ∈ map f l -> x ∈ ys) <-> (forall a, a ∈ l -> f a ∈ ys)).
  { intros A f l ys. split.
    - intros Hx a Hin. apply Hx, list_elem_of_fmap. eauto.
    - intros Hx x (a & -> & Hin)%list_elem_of_fmap. by apply Hx. }
  assert (Hdates : forall (P : date -> Prop),
    (forall d, d ∈ map a_posting_date actuals -> P d)
    <-> (forall a, a ∈ actuals -> P (a_posting_date a))).
  { intros P. split.
    - intros Hx a Hin. apply Hx, list_elem_of_fmap. eauto.
    - intros Hx x (a & -> & Hin)%list_elem_of_fmap. by apply Hx. }
  rewrite Hcol in H1, H2, H3, H4. rewrite Hdates in H5, H6.
  unfold check, compare_dates.
  destruct (issubset (map b_cost_center_id budget) cc_ids); simpl.
  2:{ split; [|intros e [= <-]; eauto]. split; [done|].
      intros (Hb & _).
      enough (false = true) by done. apply H1. intros b Hin. by apply Hb. }
  destruct (issubset (map a_cost_center_id actuals) cc_ids); simpl.
  2:{ split; [|intros e [= <-]; eauto]. split; [done|].
      intros (_ & _ & Hact).
      enough (false = true) by done. apply H2. intros a Hin. by apply Hact. }
  destruct (issubset (map b_gl_account budget) gl_codes); simpl.
  2:{ split; [|intros e [= <-]; eauto]. split; [done|].
      intros (Hb & _).
      enough (false = true) by done. apply H3. intros b Hin. by apply Hb. }
  destruct (issubset (map a_gl_account actuals) gl_codes); simpl.
  2:{ split; [|intros e [= <-]; eauto]. split; [done|].
      intros (_ & _ & Hact).
      enough (false = true) by done. apply H4. intros a Hin. by apply Hact. }
  destruct (date_leb cmin pmin); simpl.
  2:{ split; [|intros e [= <-]; eauto]. split; [done|].
      intros (_ & _ & Hact).
      enough (false = true) by done. apply H5. intros a Hin. by apply Hact. }
  destruct (date_leb pmax cmax); simpl.
  2:{ split; [|intros e [= <-]; eauto]. split; [done|].
      intros (_ & _ & Hact).
      enough (false = true) by done. apply H6. intros a Hin. by apply Hact. }
  destruct (negb (any_true (duplicated (map budget_key budget)))); simpl.
  2:{ split; [|intros e [= <-]; eauto]. split; [done|].
      intros (_ & Hnd & _).
      enough (false = true) by done. by apply H7. }
  destruct (forallb _ budget); simpl.
  2:{ split; [|intros e [= <-]; eauto]. split; [done|].
      intros (Hb & _).
      enough (false = true) by done. apply H8. intros b Hin. by apply Hb. }
  split; [|intros e [=]]. split; [|done]. intros _.
  split; [|split].
  - intros b Hb. split; [by apply H1|]. split; [by apply H3|by apply H8].
  - by apply H7.
  - intros a Hin. split; [by apply H2|]. split; [by apply H4|].
    split; [by apply H5|by apply H6].
Qed.

(** X9. On a non-empty actuals table and a non-empty calendar,
    [validate] returns exactly when every budget row and every posting
    names a cost center and a GL account of the dimension tables, every
    posting date has a calendar date at or before it and one at or after
    it, the budget keys are distinct and no budget amount is negative;
    otherwise it raises an [AssertionError] and nothing else. *)
Theorem validate_accepts_iff (cost_centers : list CostCenter)
    (gl_accounts : list GLAccount) (fiscal_calendar : list CalendarDay)
    (budget : list BudgetCell) (actuals : list ActualPosting) :
  actuals <> [] ->
  fiscal_calendar <> [] ->
  let cc_ids := map cc_cost_center_id cost_centers in
  let gl_codes := map gl_gl_account gl_accounts in
  let calendar_dates := map cal_calendar_date fiscal_calendar in
  (validate cost_centers gl_accounts fiscal_calendar budget actuals = Ok tt
   <-> ((forall b, b ∈ budget ->
           b_cost_center_id b ∈ cc_ids /\ b_gl_account b ∈ gl_codes
           /\ (0 <= b_budget_amount b)%Q)
        /\ NoDup (map budget_key budget)
        /\ (forall a, a ∈ actuals ->
              a_cost_center_id a ∈ cc_ids /\ a_gl_account a ∈ gl_codes
              /\ (exists c, c ∈ calendar_dates
                            /\ date_le c (a_posting_date a))
              /\ (exists c, c ∈ calendar_dates
                            /\ date_le (a_posting_date a) c))))
  /\ (forall e,
        validate cost_centers gl_accounts fiscal_calendar budget actuals
        = Raise e -> exists a, e = AssertionError a).
Proof. apply validate_outcome. Qed.

(** ** Runs that succeed *)



Section Success.
Context {G : Type} `{GeneratorLaws G}.
Variable to_csv : Table -> string.




End Success.

(** ** Duplicates that trip the guard of the budget *)

Lemma NoDup_budget_grid_inv (months : list period)
    (cc_ids gl_codes : list string) :
  NoDup (budget_grid months cc_ids gl_codes) ->
  months <> [] ->
  (gl_codes <> [] -> NoDup cc_ids) /\ (cc_ids <> [] -> NoDup gl_codes).
Proof.
  intros Hnd Hm. destruct months as [|p ms]; [done|].
  unfold budget_grid in Hnd. cbn [map concat] in Hnd.
  apply NoDup_app in Hnd as (Hnd & _ & _). split.
  - intros Hg. destruct gl_codes as [|g0 gs]; [done|].
    apply (NoDup_fmap_1 (fun cc : string => (p.1, p.2, g0, cc))).
    eapply sublist_NoDup; [exact Hnd|].
    clear. induction cc_ids as [|c cs IH]; [done|].
    cbn [map concat fmap list_fmap]. apply sublist_skip.
    by apply sublist_inserts_l.
  - intros Hc. destruct cc_ids as [|c0 cs]; [done|].
    cbn [map concat] in Hnd. apply NoDup_app in Hnd as (Hnd & _ & _).
    by apply NoDup_fmap_1 in Hnd.
Qed.

Section Rejects.
Context {G : Type} `{Generator G}.

(** X12. With at least one month in the range, a repeated cost-center
    id (when some GL account is outside the sparse set) or a repeated
    code among the GL accounts outside the sparse set (when there is a
    cost center) makes [generate_budget] raise its [ValueError] with a
    positive count of duplicates, whatever the generator draws: the
    rows of the accounts outside the sparse set are never omitted. *)
Theorem generate_budget_rejects_duplicates (cfg : Config)
    (cost_centers : list CostCenter) (gl_accounts : list GLAccount)
    (g : G) :
  let cc_ids := map cc_cost_center_id cost_centers in
  let kept := filter (fun c => c ∉ sparse_catalog)
                     (map gl_gl_account gl_accounts) in
  period_range (start_date cfg) (end_date cfg) <> [] ->
  (~ NoDup cc_ids /\ kept <> []) \/ (~ NoDup kept /\ cc_ids <> []) ->
  exists n : nat,
    (0 < n)%nat
    /\ generate_budget cfg cost_centers gl_accounts g
       = Raise (ValueError ("Budget grain not unique; duplicates found: "
                            +:+ str (Z.of_nat n))).
Proof.
  intros cc_ids kept Hm Hdup.
  pose proof (budget_rows_keys_lower cfg cost_centers gl_accounts g) as Hlow.
  fold cc_ids kept in Hlow.
  unfold generate_budget.
  destruct (budget_rows cfg cost_centers gl_accounts g) as [budget g'].
  simpl in Hlow.
  set (dupes := count_true (duplicated (map budget_key budget))).
  destruct (Nat.eqb_spec dupes 0) as [Hz|Hnz]; simpl.
  - exfalso. apply duplicated_none in Hz.
    pose proof (sublist_NoDup _ _ Hz Hlow) as Hgrid.
    destruct (NoDup_budget_grid_inv _ _ _ Hgrid Hm) as [H1 H2].
    destruct Hdup as [[Hnd Hk]|[Hnd Hc]]; [apply Hnd, H1, Hk|].
    apply Hnd, H2, Hc.
  - exists dupes. split; [lia|done].
Qed.
End Rejects.

(** ** Order of the actuals table *)

Lemma str_compare_lt_trans (a b c : string) :
  String.compare a b = Lt -> String.compare b c = Lt ->
  String.compare a c = Lt.
Proof.
  revert b c. induction a as [|x a IH]; intros [|y b] [|z c]; simpl;
    try done.
  unfold Ascii.compare.
  destruct (N.compare_spec (N_of_ascii x) (N_of_ascii y)) as [E1|L1|G1];
    destruct (N.compare_spec (N_of_ascii y) (N_of_ascii z)) as [E2|L2|G2];
    intros H1 H2; try done.
  - replace (N_of_ascii x ?= N_of_ascii z)%N with Eq
      by (symmetry; apply N.compare_eq_iff; congruence).
    by eapply IH.
  - replace (N_of_ascii x ?= N_of_ascii z)%N with Lt; [done|].
    symmetry. apply N.compare_lt_iff. lia.
  - replace (N_of_ascii x ?= N_of_ascii z)%N with Lt; [done|].
    symmetry. apply N.compare_lt_iff. lia.
  - replace (N_of_ascii x ?= N_of_ascii z)%N with Lt; [done|].
    symmetry. apply N.compare_lt_iff. lia.
Qed.

Lemma str_compare_refl (a : string) : String.compare a a = Eq.
Proof.
  pose proof (String.compare_antisym a a) as Ha.
  by destruct (String.compare a a).
Qed.

Lemma str_le_cases (a b : string) :
  String.leb a b = true <-> String.compare a b = Lt \/ a = b.
Proof.
  unfold String.leb. destruct (String.compare a b) eqn:E.
  - apply String.compare_eq_iff in E. tauto.
  - tauto.
  - split; [done|]. intros [?| ->]; [done|].
    by rewrite str_compare_refl in E.
Qed.

Lemma str_lt_cases (a b : string) :
  String.compare a b = Lt \/ a = b \/ String.compare b a = Lt.
Proof.
  pose proof (String.compare_antisym b a) as Hab.
  destruct (String.compare a b) eqn:E.
  - apply String.compare_eq_iff in E. tauto.
  - tauto.
  - right. right. by rewrite Hab.
Qed.

Lemma str_lt_irrefl (a : string) : String.compare a a <> Lt.
Proof. by rewrite str_compare_refl. Qed.

Lemma grain_le_spec (k1 k2 : grain) :
  grain_le k1 k2 <->
  k1.1.1.1 < k2.1.1.1
  \/ (k1.1.1.1 = k2.1.1.1
      /\ (k1.1.1.2 < k2.1.1.2
          \/ (k1.1.1.2 = k2.1.1.2
              /\ (String.compare k1.1.2 k2.1.2 = Lt
                  \/ (k1.1.2 = k2.1.2
                      /\ (String.compare k1.2 k2.2 = Lt
                          \/ k1.2 = k2.2)))))).
Proof.
  destruct k1 as [[[y1 p1] g1] c1], k2 as [[[y2 p2] g2] c2].
  unfold grain_le, grain_leb. simpl.
  rewrite <- str_le_cases.
  destruct (Z.ltb_spec y1 y2); [simpl; split; [by left|done]|].
  destruct (Z.eqb_spec y1 y2); simpl; [|split; [done|lia]].
  destruct (Z.ltb_spec p1 p2); [simpl; split; [right; split; [done|by left]|done]|].
  destruct (Z.eqb_spec p1 p2); simpl; [|split; [done|lia]].
  unfold String.ltb.
  destruct (String.compare g1 g2) eqn:Eg; simpl.
  - apply String.compare_eq_iff in Eg. subst g2.
    rewrite String.eqb_refl. simpl. split.
    + intros Hc. right. split; [done|]. right. split; [done|].
      right. by split.
    + intros [?|[_ [?|[_ [?|[_ Hc]]]]]]; try lia; try done.
  - split; [|done]. intros _. right. split; [done|]. right.
    split; [done|]. by left.
  - destruct (String.eqb_spec g1 g2) as [->|Hne]; simpl.
    + by rewrite str_compare_refl in Eg.
    + split; [done|].
      intros [?|[_ [?|[_ [?|[? _]]]]]]; try lia; done.
Qed.

#[global] Instance grain_le_trans : Transitive grain_le.
Proof.
  intros k1 k2 k3. rewrite !grain_le_spec.
  destruct k1 as [[[y1 p1] g1] c1], k2 as [[[y2 p2] g2] c2],
    k3 as [[[y3 p3] g3] c3]. simpl.
  intros [?|[-> [?|[-> [Hg|[-> [Hc| ->]]]]]]];
    intros [?|[Hy [?|[Hp [Hg'|[Hg' [Hc'|Hc']]]]]]]; subst;
    try (left; lia);
    try (right; split; [done|]; left; lia);
    try (right; split; [done|]; right; split; [done|]; left;
         by eauto using str_compare_lt_trans);
    try (right; split; [done|]; right; split; [done|]; right;
         split; [done|]; left; by eauto using str_compare_lt_trans);
    try (right; split; [done|]; right; split; [done|]; right;
         split; [done|]; by right).
Qed.

#[global] Instance grain_le_total : Total grain_le.
Proof.
  intros k1 k2. rewrite !grain_le_spec.
  destruct k1 as [[[y1 p1] g1] c1], k2 as [[[y2 p2] g2] c2]. simpl.
  destruct (Z.lt_trichotomy y1 y2) as [?|[->|?]];
    [left; by left| |right; by left].
  destruct (Z.lt_trichotomy p1 p2) as [?|[->|?]];
    [left; right; split; [done|]; by left|
    |right; right; split; [done|]; by left].
  destruct (str_lt_cases g1 g2) as [?|[->|?]];
    [left; right; split; [done|]; right; split; [done|]; by left|
    |right; right; split; [done|]; right; split; [done|]; by left].
  destruct (str_lt_cases c1 c2) as [?|[->|?]].
  - left. right. split; [done|]. right. split; [done|]. right.
    split; [done|]. by left.
  - left. right. split; [done|]. right. split; [done|]. right.
    split; [done|]. by right.
  - right. right. split; [done|]. right. split; [done|]. right.
    split; [done|]. by left.
Qed.

Lemma StronglySorted_lookup {A} (R : relation A) (l : list A) i j x y :
  StronglySorted R l -> (i < j)%nat ->
  l !! i = Some x -> l !! j = Some y -> R x y.
Proof.
  intros Hs. revert i j. induction Hs as [|a l Hs IH Hall]; intros i j Hij.
  - by rewrite lookup_nil.
  - destruct j as [|j]; [lia|]. destruct i as [|i]; simpl.
    + intros [= <-] Hy. rewrite Forall_forall in Hall.
      apply Hall. by eapply list_elem_of_lookup_2.
    + apply IH. lia.
Qed.

(** The keys of the grouped budget ascend strictly. *)
Lemma groupby_sum_sorted (budget : list BudgetCell) i j k1 k2 :
  (i < j)%nat ->
  map budget_key (groupby_sum budget) !! i = Some k1 ->
  map budget_key (groupby_sum budget) !! j = Some k2 ->
  grain_le k1 k2 /\ k1 <> k2.
Proof.
  intros Hij H1 H2. split.
  - rewrite groupby_sum_keys in H1, H2.
    eapply (StronglySorted_lookup grain_le); [|exact Hij|exact H1|exact H2].
    apply StronglySorted_merge_sort; apply _.
  - intros ->. pose proof (groupby_sum_NoDup budget) as Hnd.
    pose proof (NoDup_lookup _ _ _ _ Hnd H1 H2). lia.
Qed.

#[global] Instance grain_le_refl : Reflexive grain_le.
Proof. intros k. by destruct (grain_le_total k k). Qed.

(** A table made of one block of rows for each key of a sorted list of
    keys is sorted by key. *)
Lemma blocks_sorted {A K} (R : relation K) `{!Reflexive R} (key : A -> K)
    (ks : list K) (parts : list (list A)) :
  StronglySorted R ks ->
  Forall2 (fun k rows => Forall (fun a => key a = k) rows) ks parts ->
  StronglySorted R (map key (concat parts)).
Proof.
  intros Hs HF. induction HF as [|k rows ks parts Hrows HF IH]; simpl.
  - constructor.
  - apply StronglySorted_inv in Hs as [Hs Hall].
    specialize (IH Hs). rewrite map_app.
    assert (Hrest : Forall (R k) (map key (concat parts))).
    { clear IH Hs. induction HF as [|k' rows' ks parts Hrows' HF IH'];
        simpl; [constructor|].
      apply Forall_cons in Hall as [Hk Hall].
      rewrite map_app. apply Forall_app. split; [|by apply IH'].
      apply Forall_fmap. eapply Forall_impl; [exact Hrows'|].
      simpl. by intros a ->. }
    clear Hall. induction Hrows as [|a rows Ha Hrows IHr]; simpl; [done|].
    constructor; [done|]. rewrite Ha. apply Forall_app. split; [|done].
    apply Forall_fmap. eapply Forall_impl; [exact Hrows|].
    simpl. by intros b ->.
Qed.

Lemma blocks_length {A B} (m : Z) (cells : list A) (parts : list (list B)) :
  Forall2 (fun _ rows => 1 <= Z.of_nat (length rows) <= m) cells parts ->
  Z.of_nat (length cells) <= Z.of_nat (length (concat parts))
  <= m * Z.of_nat (length cells).
Proof.
  induction 1 as [|c rows cells parts Hr _ IH]; simpl; [lia|].
  rewrite length_app. lia.
Qed.

Section ActualsOrder.
Context {G : Type} `{GeneratorLaws G}.

(** X13. The rows of a returned actuals table are in ascending order of
    their key (fiscal year, fiscal period, GL account, cost center),
    the order of the grouped budget, not the order of the budget rows;
    and for a maximum of at least one posting per cell their number is
    between the number of distinct budget keys and that number times
    the maximum. *)
Theorem actuals_in_key_order (cfg : Config) (budget : list BudgetCell)
    (gl_accounts : list GLAccount) (g : G)
    (actuals : list ActualPosting) (g' : G) :
  generate_actuals cfg budget gl_accounts g = Ok (actuals, g') ->
  (forall i j a1 a2,
     (i < j)%nat -> actuals !! i = Some a1 -> actuals !! j = Some a2 ->
     grain_le (actual_key a1) (actual_key a2))
  /\ (1 <= max_postings_per_month cfg ->
      let cells := Z.of_nat (length (remove_dups (map budget_key budget))) in
      cells <= Z.of_nat (length actuals)
      <= max_postings_per_month cfg * cells).
Proof.
  intros Hgen.
  apply generate_actuals_inv in Hgen as (co & parts & -> & HF).
  split.
  - assert (Hs : StronglySorted grain_le
                   (map actual_key (concat parts))).
    { apply (blocks_sorted grain_le actual_key
               (map budget_key (groupby_sum budget))).
      - rewrite groupby_sum_keys.
        apply StronglySorted_merge_sort; apply _.
      - apply Forall2_fmap_l. eapply Forall2_impl; [exact HF|]. simpl.
        intros c rs (gc & gd & Hc').
        by apply actual_cell_inv in Hc' as (?&?&?&?&?&?&?&?&?&?&?). }
    intros i j a1 a2 Hij H1 H2.
    eapply (StronglySorted_lookup grain_le); [exact Hs|exact Hij|..].
    + by rewrite list_lookup_fmap, H1.
    + by rewrite list_lookup_fmap, H2.
  - intros Hmax. cbv zeta.
    assert (Hlen : length (groupby_sum budget)
                   = length (remove_dups (map budget_key budget))).
    { rewrite <- (length_map budget_key), groupby_sum_keys.
      apply Permutation_length, merge_sort_Permutation. }
    rewrite <- Hlen. apply blocks_length.
    eapply Forall2_impl; [exact HF|]. simpl.
    intros c rs (gc & gd & Hc').
    apply actual_cell_inv in Hc'
      as (ga & gb & ge & dates & _ & _ & _ & Hl & _).
    simpl in Hl.
    match type of Hl with
    | _ = Z.to_nat (np_clip ?k 1 _) =>
        pose proof (np_clip_range k 1 _ Hmax) as Hn
    end.
    lia.
Qed.
End ActualsOrder.

(** ** Posting dates and the months of the range *)

Section PostingMonths.
Context {G : Type} `{GeneratorLaws G}.

(** X14. Whatever the days of [start_date] and [end_date] are, every
    posting date of a returned actuals table lies between the first day
    of the month of [start_date] and the last day of the month of
    [end_date]: the dates are drawn from whole months.  So they lie in
    [start_date, end_date] when the range starts on the first and ends
    on the last day of a month. *)
Theorem posting_dates_within_months (cfg : Config)
    (budget : list BudgetCell) (gl_accounts : list GLAccount) (g : G)
    (actuals : list ActualPosting) (g' : G) :
  1 <= month (start_date cfg) <= 12 ->
  1 <= month (end_date cfg) <= 12 ->
  generate_actuals cfg budget gl_accounts g = Ok (actuals, g') ->
  let first := Date (year (start_date cfg)) (month (start_date cfg)) 1 in
  let last :=
    Date (year (end_date cfg)) (month (end_date cfg))
         (days_in_month (year (end_date cfg)) (month (end_date cfg))) in
  forall a, a ∈ actuals ->
    date_le first (a_posting_date a)
    /\ date_le (a_posting_date a) last
    /\ (day (start_date cfg) = 1 ->
        date_le (start_date cfg) (a_posting_date a))
    /\ (day (end_date cfg)
        = days_in_month (year (end_date cfg)) (month (end_date cfg)) ->
        date_le (a_posting_date a) (end_date cfg)).
Proof.
  intros Hms Hme Hgen first last a Ha.
  destruct (posting_dates_in_period _ _ _ _ _ _ Hgen a Ha) as [Hp Hd].
  apply period_range_index in Hp as (i & Hp & Hi).
  apply elem_of_dates_in_period in Hd as (Hy & Hm & Hday).
  rewrite Hp in Hy, Hm, Hday. unfold period_of_index in *. simpl in *.
  unfold month_index in Hi. subst first last.
  destruct (start_date cfg) as [ys ms ds], (end_date cfg) as [ye me de].
  destruct (a_posting_date a) as [y m k]. simpl in *. subst.
  pose proof (Z.mod_pos_bound i 12) as Hmod.
  pose proof (Z.div_mod i 12) as Hdm.
  rewrite !date_le_spec. simpl.
  assert (Hlo : ys < i / 12 \/ (ys = i / 12 /\ ms <= i mod 12 + 1)) by lia.
  assert (Hhi : i / 12 < ye \/ (i / 12 = ye /\ i mod 12 + 1 <= me)) by lia.
  repeat split; try intros ->; try lia.
  - destruct Hhi as [?|[Hq Hle]]; [lia|]. subst ye.
    destruct (Z.eq_dec (i mod 12 + 1) me) as [Heq|?]; [subst me|]; lia.
  - destruct Hhi as [?|[Hq Hle]]; [lia|]. subst ye.
    destruct (Z.eq_dec (i mod 12 + 1) me) as [Heq|?]; [subst me|]; lia.
Qed.
End PostingMonths.

(** The postings of the January row are dated in January 2024. *)
Lemma posting_dates_within_months_witness :
  exists (actuals : list ActualPosting) (g' : Replay.state),
    generate_actuals (jan_scenario default_config) [jan_budget_row]
      [first_gl_account] (default_rng 7) = Ok (actuals, g')
    /\ forall a, a ∈ actuals ->
         date_le (Date 2024 1 1) (a_posting_date a)
         /\ date_le (a_posting_date a) (Date 2024 1 31).
Proof.
  destruct (generate_actuals (jan_scenario default_config) [jan_budget_row]
              [first_gl_account] (default_rng 7 : Replay.state))
    as [[actuals g']|e] eqn:E; [|vm_compute in E; discriminate E].
  exists actuals, g'. split; [reflexivity|]. intros a Ha.
  destruct (posting_dates_within_months (jan_scenario default_config)
              [jan_budget_row] [first_gl_account] _ _ _
              ltac:(simpl; lia) ltac:(simpl; lia) E a Ha)
    as (Hlo & Hhi & _).
  split; [exact Hlo|exact Hhi].
Defined.

(** ** The further theorems at concrete inputs *)

(** Twelve cost centers build, thirteen do not. *)
Lemma make_dimensions_outcome_witness :
  (exists dims, make_dimensions default_config = Ok dims)
  /\ make_dimensions thirteen_cost_centers_config
     = Raise (ValueError "All arrays must be of the same length").
Proof.
  split.
  - apply (proj1 (make_dimensions_outcome default_config)). simpl. lia.
  - apply (proj2 (make_dimensions_outcome thirteen_cost_centers_config)).
    simpl. lia.
Defined.

(** The tables of the January scenario. *)
Lemma make_dimensions_tables_witness :
  exists dims,
    make_dimensions (jan_scenario default_config) = Ok dims
    /\ length (dim_cost_centers dims) = 1%nat.
Proof.
  eexists. split; [vm_compute; reflexivity|].
  refine (proj1 (make_dimensions_tables (jan_scenario default_config) _ _ _)).
  - simpl. lia.
  - vm_compute. reflexivity.
Defined.

(** The calendar of the January scenario starts on the first of January. *)
Lemma fiscal_calendar_covers_range_witness :
  exists dims,
    make_dimensions (jan_scenario default_config) = Ok dims
    /\ date_min (map cal_calendar_date (dim_fiscal_calendar dims))
       = Some (Date 2024 1 1).
Proof.
  eexists. split; [vm_compute; reflexivity|].
  refine (proj1 (proj2 (proj2
    (fiscal_calendar_covers_range (jan_scenario default_config) _ _ _ _ _)))).
  - vm_compute. reflexivity.
  - unfold valid_date. simpl. lia.
  - unfold valid_date. simpl. lia.
  - reflexivity.
Defined.

(** The one key of the budget of the January scenario. *)
Lemma generate_budget_grid_witness :
  exists (budget : list BudgetCell) (g' : Replay.state),
    generate_budget (jan_scenario default_config) [first_cost_center]
      [first_gl_account] (default_rng 42) = Ok (budget, g')
    /\ map budget_key budget = [(2024, 1, "600000", "CC0001")]
    /\ length budget = 1%nat.
Proof.
  destruct (generate_budget_grid (jan_scenario default_config)
              [first_cost_center] [first_gl_account]
              (default_rng 42 : Replay.state))
    as (budget & g' & Hgen & _ & _ & Hall & _).
  - apply NoDup_singleton.
  - apply NoDup_singleton.
  - exists budget, g'. split; [exact Hgen|].
    apply Hall. simpl. discriminate.
Defined.

(** A repeated cost center trips the guard. *)
Lemma generate_budget_rejects_duplicates_witness :
  exists n : nat,
    (0 < n)%nat
    /\ generate_budget (jan_scenario default_config)
         [first_cost_center; first_cost_center] [first_gl_account]
         (default_rng 42 : Replay.state)
       = Raise (ValueError ("Budget grain not unique; duplicates found: "
                            +:+ str (Z.of_nat n))).
Proof.
  apply (generate_budget_rejects_duplicates (jan_scenario default_config)
           [first_cost_center; first_cost_center] [first_gl_account]
           (default_rng 42 : Replay.state)).
  - vm_compute. discriminate.
  - left. split.
    + intros Hnd. apply NoDup_cons in Hnd as [Hx _]. apply Hx. left.
    + vm_compute. discriminate.
Defined.

(** The cohorts drawn for the January row. *)
Lemma trend_cohorts_disjoint_witness :
  exists (actuals : list ActualPosting) (g' : Replay.state) (co : Cohorts),
    generate_actuals (jan_scenario default_config) [jan_budget_row]
      [first_gl_account] (default_rng 7) = Ok (actuals, g')
    /\ over_budget_cc co ## under_budget_cc co
    /\ Z.of_nat (size (over_budget_cc co)) = 1.
Proof.
  destruct (generate_actuals (jan_scenario default_config) [jan_budget_row]
              [first_gl_account] (default_rng 7 : Replay.state))
    as [[actuals g']|e] eqn:E; [|vm_compute in E; discriminate E].
  destruct (trend_cohorts_disjoint _ _ _ _ _ _ E)
    as (co & g2 & _ & _ & _ & _ & Hdisj & _ & Hover & _).
  exists actuals, g', co. split; [reflexivity|]. split; [exact Hdisj|].
  exact Hover.
Defined.

(** The postings of the January row name the row. *)
Lemma actual_postings_reference_budget_witness :
  exists (actuals : list ActualPosting) (g' : Replay.state),
    generate_actuals (jan_scenario default_config) [jan_budget_row]
      [first_gl_account] (default_rng 7) = Ok (actuals, g')
    /\ forall a, a ∈ actuals ->
         a_document_type a ∈ doc_types
         /\ year (a_posting_date a) = a_fiscal_year a
         /\ month (a_posting_date a) = a_fiscal_period a.
Proof.
  destruct (generate_actuals (jan_scenario default_config) [jan_budget_row]
              [first_gl_account] (default_rng 7 : Replay.state))
    as [[actuals g']|e] eqn:E; [|vm_compute in E; discriminate E].
  exists actuals, g'. split; [reflexivity|]. intros a Ha.
  destruct (actual_postings_reference_budget _ _ _ _ _ _ E a Ha)
    as (_ & Hdoc & _ & _ & Hy & Hm & _).
  split; [exact Hdoc|]. split; [exact Hy|exact Hm].
Defined.


(** The postings of the January row add up to its target. *)
Lemma actuals_sum_near_target_witness :
  exists (actuals : list ActualPosting) (g' : Replay.state),
    generate_actuals (jan_scenario default_config) [jan_budget_row]
      [first_gl_account] (default_rng 7) = Ok (actuals, g')
    /\ 1 <= Z.of_nat (length (filter
              (fun a => actual_key a = budget_key jan_budget_row) actuals))
       <= 14.
Proof.
  destruct (generate_actuals (jan_scenario default_config) [jan_budget_row]
              [first_gl_account] (default_rng 7 : Replay.state))
    as [[actuals g']|e] eqn:E; [|vm_compute in E; discriminate E].
  exists actuals, g'. split; [reflexivity|].
  destruct (actuals_sum_near_target (jan_scenario default_config)
              [jan_budget_row] [first_gl_account] _ _ _
              ltac:(simpl; lia) (NoDup_singleton _) E)
    as (co & g2 & _ & Hrows).
  destruct (Hrows jan_budget_row ltac:(left)) as (g1 & Hcount & _).
  exact Hcount.
Defined.

(** The postings of the January row are in key order. *)
Lemma actuals_in_key_order_witness :
  exists (actuals : list ActualPosting) (g' : Replay.state),
    generate_actuals (jan_scenario default_config) [jan_budget_row]
      [first_gl_account] (default_rng 7) = Ok (actuals, g')
    /\ forall i j a1 a2,
         (i < j)%nat -> actuals !! i = Some a1 -> actuals !! j = Some a2 ->
         grain_le (actual_key a1) (actual_key a2).
Proof.
  destruct (generate_actuals (jan_scenario default_config) [jan_budget_row]
              [first_gl_account] (default_rng 7 : Replay.state))
    as [[actuals g']|e] eqn:E; [|vm_compute in E; discriminate E].
  exists actuals, g'. split; [reflexivity|].
  exact (proj1 (actuals_in_key_order _ _ _ _ _ _ E)).
Defined.

(** The validator on the tables of the January scenario with one posting. *)
Lemma validate_accepts_iff_witness :
  validate [first_cost_center] [first_gl_account]
    [calendar_row (Date 2024 1 1)] [jan_budget_row] [jan_posting] = Ok tt.
Proof.
  apply (proj1 (validate_accepts_iff [first_cost_center] [first_gl_account]
                  [calendar_row (Date 2024 1 1)] [jan_budget_row]
                  [jan_posting] ltac:(discriminate) ltac:(discriminate))).
  split; [|split].
  - intros b Hb. apply list_elem_of_singleton in Hb. subst b.
    split; [left|]. split; [left|]. simpl. discriminate.
  - apply NoDup_singleton.
  - intros a Ha. apply list_elem_of_singleton in Ha. subst a.
    split; [left|]. split; [left|].
    split; exists (Date 2024 1 1); (split; [left|reflexivity]).
Defined.


